(** * aiohere: a shallow embedding of the HERE weather client

    The development follows [aiohere/aiohere.py] and [aiohere/enum.py].
    Python values are an inductive type, dictionaries are finite maps,
    the client object and the observable calls on its collaborators (the
    HTTP session and the response object) are threaded through a small
    state-and-exception monad. *)

From Stdlib Require Import ZArith NArith List Ascii String SpecFloat DecimalString.
From Stdlib.Strings Require Import Byte.
From stdpp Require Import base gmap strings list fin_maps.

Local Open Scope Z_scope.
Local Open Scope string_scope.

(** ** Python values *)

(** The values a decoded JSON document is made of, which are also the values
    [request] hands back: [None], [bool], [int], [float], [str], [list] and
    [dict] with string keys. *)
#[warnings="-register-all"] Inductive pyval : Type :=
| PNone
| PBool (b : bool)
| PInt (z : Z)
| PFloat (f : spec_float)
| PStr (s : string)
| PList (l : list pyval)
| PDict (d : gmap string pyval).

(** [v is None] *)
Definition is_None (v : pyval) : bool :=
  match v with PNone => true | _ => false end.

(** [v == s] for a string literal [s]: only a [str] equals a [str]. *)
Definition eq_str (v : pyval) (s : string) : bool :=
  match v with PStr t => String.eqb t s | _ => false end.

(** [needle in hay] on two [str]: substring search. *)
Fixpoint str_in (needle hay : string) : bool :=
  String.prefix needle hay
  || match hay with
     | EmptyString => false
     | String _ hay' => str_in needle hay'
     end.

(** The name Python prints for the type of a value, as in
    ['NoneType' object has no attribute 'get']. *)
Definition type_name (v : pyval) : string :=
  match v with
  | PNone => "NoneType"
  | PBool _ => "bool"
  | PInt _ => "int"
  | PFloat _ => "float"
  | PStr _ => "str"
  | PList _ => "list"
  | PDict _ => "dict"
  end.

(** ** Exceptions *)

(** Modelled from the spec: the module [aiohere/exceptions.py], from which
    [HereError], [HereInvalidRequestError], [HereTimeOutError] and
    [HereUnauthorizedError] are imported, is not among the sources.  Section 7
    of the specification gives the taxonomy: four kinds sharing the base
    [HereError], each carrying what it was constructed with.  The remaining
    constructors are the built-in and library exceptions the code can meet. *)
Inductive exn : Type :=
| HereError (args : list pyval)
| HereTimeOutError (args : list pyval)
| HereUnauthorizedError (args : list pyval)
| HereInvalidRequestError (args : list pyval)
| KeyError (key : string)
| AttributeError (type attr : string)
| TypeError (msg : string)
| UnicodeDecodeError
| asyncio_TimeoutError
| aiohttp_ClientError
| aiohttp_ServerTimeoutError
| socket_gaierror
| OtherError (name : string).

(** [isinstance(e, HereError)]: the four kinds of the taxonomy. *)
Definition is_HereError (e : exn) : bool :=
  match e with
  | HereError _ | HereTimeOutError _
  | HereUnauthorizedError _ | HereInvalidRequestError _ => true
  | _ => false
  end.

(** [isinstance(e, asyncio.TimeoutError)]; aiohttp's [ServerTimeoutError]
    derives from it as well as from [ClientError]. *)
Definition is_asyncio_TimeoutError (e : exn) : bool :=
  match e with
  | asyncio_TimeoutError | aiohttp_ServerTimeoutError => true
  | _ => false
  end.

(** [isinstance(e, (aiohttp.ClientError, socket.gaierror))] *)
Definition is_ClientError_or_gaierror (e : exn) : bool :=
  match e with
  | aiohttp_ClientError | aiohttp_ServerTimeoutError | socket_gaierror => true
  | _ => false
  end.

(** The outcome of evaluating an expression: a value or a raised exception. *)
Inductive res (A : Type) : Type :=
| Ret (a : A)
| Raise (e : exn).
Arguments Ret {A} a.
Arguments Raise {A} e.

Definition res_bind {A B : Type} (c : res A) (k : A -> res B) : res B :=
  match c with
  | Ret a => k a
  | Raise e => Raise e
  end.

Notation "x <-? c ;; k" := (res_bind c (fun x => k))
  (at level 100, c at next level, right associativity).

(** ** Operations on values that can raise *)

(** [key in v] *)
Definition py_contains (key : string) (v : pyval) : res bool :=
  match v with
  | PDict d => Ret (bool_decide (is_Some (d !! key)))
  | PList l => Ret (existsb (fun x => eq_str x key) l)
  | PStr s => Ret (str_in key s)
  | _ => Raise (TypeError ("argument of type '" ++ type_name v ++ "' is not iterable"))
  end.

(** [v[key]] for a string [key] *)
Definition py_getitem (v : pyval) (key : string) : res pyval :=
  match v with
  | PDict d =>
      match d !! key with
      | Some x => Ret x
      | None => Raise (KeyError key)
      end
  | PList _ => Raise (TypeError "list indices must be integers or slices, not str")
  | PStr _ => Raise (TypeError "string indices must be integers")
  | _ => Raise (TypeError ("'" ++ type_name v ++ "' object is not subscriptable"))
  end.

(** [v.get(key)]: only a [dict] has the method; a missing key gives [None]. *)
Definition py_get (v : pyval) (key : string) : res pyval :=
  match v with
  | PDict d => Ret (default PNone (d !! key))
  | _ => Raise (AttributeError (type_name v) "get")
  end.

(** ** [bytes.decode("utf8")]

    A Python [str] is represented by its UTF-8 encoding, so decoding is a
    validity check: Python's strict decoder accepts exactly the well-formed
    sequences (no overlong forms, no surrogates, nothing above U+10FFFF). *)

Definition in_range (lo hi : N) (b : byte) : bool :=
  (lo <=? Byte.to_N b)%N && (Byte.to_N b <=? hi)%N.

Definition continuation (b : byte) : bool := in_range 128 191 b.

(** The bounds on the second byte of a three- or four-byte sequence. *)
Definition second_byte (b0 b1 : byte) : bool :=
  match Byte.to_N b0 with
  | 224%N => in_range 160 191 b1
  | 237%N => in_range 128 159 b1
  | 240%N => in_range 144 191 b1
  | 244%N => in_range 128 143 b1
  | _ => continuation b1
  end.

Fixpoint valid_utf8 (bs : list byte) : bool :=
  match bs with
  | [] => true
  | b0 :: r0 =>
      if in_range 0 127 b0 then valid_utf8 r0
      else if in_range 194 223 b0 then
        match r0 with
        | b1 :: r1 => continuation b1 && valid_utf8 r1
        | _ => false
        end
      else if in_range 224 239 b0 then
        match r0 with
        | b1 :: b2 :: r2 => second_byte b0 b1 && continuation b2 && valid_utf8 r2
        | _ => false
        end
      else if in_range 240 244 b0 then
        match r0 with
        | b1 :: b2 :: b3 :: r3 =>
            second_byte b0 b1 && continuation b2 && continuation b3 && valid_utf8 r3
        | _ => false
        end
      else false
  end.

Definition bytes_decode_utf8 (contents : list byte) : res string :=
  if valid_utf8 contents then Ret (string_of_list_byte contents)
  else Raise UnicodeDecodeError.

(** ** [aiohere/enum.py] *)

Inductive WeatherProductType : Type :=
| observation
| forecast_7days
| forecast_7days_simple
| forecast_hourly
| forecast_astronomy
| alerts
| nws_alerts.

#[global] Instance WeatherProductType_eq_dec : EqDecision WeatherProductType.
Proof. solve_decision. Defined.

(** The value each member is declared with. *)
Definition _value_ (p : WeatherProductType) : string :=
  match p with
  | observation => "observation"
  | forecast_7days => "forecast_7days"
  | forecast_7days_simple => "forecast_7days_simple"
  | forecast_hourly => "forecast_hourly"
  | forecast_astronomy => "forecast_astronomy"
  | alerts => "alerts"
  | nws_alerts => "nws_alerts"
  end.

(** [WeatherProductType.__str__]: ["%s" % self._value_] *)
Definition __str__ (p : WeatherProductType) : string := _value_ p.

(** ** [aiohere/aiohere.py]: constants *)

Definition SCHEME : string := "https".
Definition API_HOST : string := "weather.cc.api.here.com".
Definition API_PATH : string := "/weather/1.0/report.json".
(** [str(URL.build(scheme=SCHEME, host=API_HOST, path=API_PATH))] *)
Definition API_URL : string := SCHEME ++ "://" ++ API_HOST ++ API_PATH.

(** ** The collaborators: session and response *)

(** A [ClientSession] object is known by its identity. *)
Definition session : Type := nat.

(** What [session.request(method, url, data=, json=, params=, headers=)]
    is called with. *)
Record http_request : Type := {
  rq_method : string;
  rq_url : string;
  rq_data : pyval;
  rq_json : pyval;
  rq_params : option (gmap string string);
  rq_headers : gmap string string
}.

(** A response object, by what the code asks of it: [status], the lookup
    [headers.get(name)], the bytes [read()] gives, and the outcomes of
    [json()] and [text()], which are the library's decoders. *)
Record ClientResponse : Type := {
  status : Z;
  headers_get : string -> option string;
  read : list byte;
  json : res pyval;
  text : res string
}.

(** The network and the far end: the outcome of one exchange made under a
    deadline of the given number of seconds. *)
Definition transport : Type := Z -> http_request -> res ClientResponse.

(** The calls made on the collaborators, in the order they happen. *)
Inductive event : Type :=
| ClientSession_new (s : session)
| session_request (s : session) (timeout : Z) (rq : http_request)
| response_read
| response_close
| response_json
| response_text
| session_close (s : session).

(** ** The client object *)

Record AioHere : Type := {
  _session : option session;
  _close_session : bool;
  api_key : string;
  request_timeout : Z
}.

(** [AioHere.__init__] *)
Definition __init__ (api_key : string) (request_timeout : Z)
    (session : option session) : AioHere :=
  {| _session := session;
     _close_session := false;
     api_key := api_key;
     request_timeout := request_timeout |}.

(** The object, the next unused session identity, and the calls so far. *)
Record state : Type := {
  self : AioHere;
  fresh : session;
  calls : list event
}.

(** ** State and exceptions *)

Definition M (A : Type) : Type := state -> res A * state.

Definition ret {A : Type} (a : A) : M A := fun st => (Ret a, st).

Definition raise {A : Type} (e : exn) : M A := fun st => (Raise e, st).

Definition bind {A B : Type} (c : M A) (k : A -> M B) : M B :=
  fun st =>
    match c st with
    | (Ret a, st') => k a st'
    | (Raise e, st') => (Raise e, st')
    end.

Notation "x <- c ;; k" := (bind c (fun x => k))
  (at level 100, c at next level, right associativity).

(** An expression that only computes. *)
Definition lift {A : Type} (r : res A) : M A := fun st => (r, st).

(** [try: c  except Exception as e: handler e] *)
Definition try_except {A : Type} (c : M A) (handler : exn -> M A) : M A :=
  fun st =>
    match c st with
    | (Ret a, st') => (Ret a, st')
    | (Raise e, st') => handler e st'
    end.

Definition get_self : M AioHere := fun st => (Ret (self st), st).

Definition set_self (o : AioHere) : M unit :=
  fun st => (Ret tt, {| self := o; fresh := fresh st; calls := calls st |}).

Definition emit (e : event) : M unit :=
  fun st => (Ret tt, {| self := self st; fresh := fresh st; calls := calls st ++ [e] |}).

(** [aiohttp.ClientSession()]: a new object. *)
Definition ClientSession : M session :=
  fun st => (Ret (fresh st),
             {| self := self st; fresh := S (fresh st);
                calls := calls st ++ [ClientSession_new (fresh st)] |}).

(** [with async_timeout.timeout(t): await s.request(...)] *)
Definition await_session_request (srv : transport) (s : session) (t : Z)
    (rq : http_request) : M ClientResponse :=
  _ <- emit (session_request s t rq) ;; lift (srv t rq).

Definition await_read (response : ClientResponse) : M (list byte) :=
  _ <- emit response_read ;; ret (read response).

Definition await_json (response : ClientResponse) : M pyval :=
  _ <- emit response_json ;; lift (json response).

Definition await_text (response : ClientResponse) : M string :=
  _ <- emit response_text ;; lift (text response).

(** ** [AioHere._get_error_from_response] *)

Definition _get_error_from_response (json_data : pyval) : res exn :=
  let otherwise : res exn :=
    error_type <-? py_get json_data "Type" ;;
    error_message <-? py_get json_data "Message" ;;
    if eq_str error_type "Invalid Request"
    then Ret (HereInvalidRequestError [error_message])
    else Ret (HereError [error_message]) in
  has_error <-? py_contains "error" json_data ;;
  if has_error : bool then
    error <-? py_getitem json_data "error" ;;
    if eq_str error "Unauthorized" then
      description <-? py_getitem json_data "error_description" ;;
      Ret (HereUnauthorizedError [description])
    else otherwise
  else otherwise.

(** ** [AioHere._product_node] *)

Definition _product_node (product : WeatherProductType) : string :=
  if decide (product = observation) then "observations"
  else if decide (product = forecast_7days) then "forecasts"
  else if decide (product = forecast_7days_simple) then "dailyForecasts"
  else if decide (product = forecast_hourly) then "hourlyForecasts"
  else if decide (product = forecast_astronomy) then "astronomy"
  else if decide (product = alerts) then "alerts"
  else "nwsAlerts".

(** ** [AioHere.request] *)

(** Lines 76 to 82: the default headers, updated with the caller's. *)
Definition request_headers (additional_headers : option (gmap string string))
    : gmap string string :=
  let headers : gmap string string :=
    <["Accept" := "application/json"]> (<["DNT" := "1"]> ∅) in
  match additional_headers with
  | Some extra => extra ∪ headers
  | None => headers
  end.

(** Lines 84 to 86: the session is created on first use. *)
Definition ensure_session : M unit :=
  o <- get_self ;;
  match _session o with
  | None =>
      s <- ClientSession ;;
      set_self {| _session := Some s; _close_session := true;
                  api_key := api_key o; request_timeout := request_timeout o |}
  | Some _ => ret tt
  end.

(** Lines 90 to 97: what [self._session.request] is called with. *)
Definition session_request_args (method : string)
    (additional_headers : option (gmap string string))
    (data json_data : pyval) (params : option (gmap string string))
    : http_request :=
  {| rq_method := method; rq_url := API_URL; rq_data := data;
     rq_json := json_data; rq_params := params;
     rq_headers := request_headers additional_headers |}.

(** Lines 88 to 105: the exchange and its two [except] clauses.  The cause
    attached by [raise ... from exception] is not kept. *)
Definition exchange (srv : transport) (rq : http_request) : M ClientResponse :=
  o <- get_self ;;
  try_except
    match _session o with
    | Some s => await_session_request srv s (request_timeout o) rq
    | None => raise (AttributeError "NoneType" "request")
    end
    (fun exception =>
       if is_asyncio_TimeoutError exception then
         raise (HereTimeOutError
                  [PStr "Timeout occurred while connecting to the here API."])
       else if is_ClientError_or_gaierror exception then
         raise (HereError
                  [PStr "Error occurred while communicating with the here API."])
       else raise exception).

(** Lines 107 to 124: what is made of the response. *)
Definition handle_response (response : ClientResponse) : M pyval :=
  let content_type := default "" (headers_get response "Content-Type") in
  if bool_decide (status response `div` 100 ∈ [4; 5]) then
    contents <- await_read response ;;
    _ <- emit response_close ;;
    if String.eqb content_type "application/json" then
      decoded <- await_json response ;;
      error <- lift (_get_error_from_response decoded) ;;
      raise error
    else
      message <- lift (bytes_decode_utf8 contents) ;;
      raise (HereError [PInt (status response);
                        PDict {["message" := PStr message]}])
  else if Z.eqb (status response) 204 then
    _ <- emit response_close ;;
    ret PNone
  else if str_in "application/json" content_type then
    await_json response
  else
    body <- await_text response ;;
    ret (PDict {["message" := PStr body]}).

Definition request (srv : transport) (method : string)
    (additional_headers : option (gmap string string))
    (data json_data : pyval) (params : option (gmap string string)) : M pyval :=
  _ <- ensure_session ;;
  response <- exchange srv
    (session_request_args method additional_headers data json_data params) ;;
  handle_response response.

(** ** [AioHere.weather_for_coordinates] *)

Section Weather.

(** The coordinates are numbers; [str] is Python's conversion of a number
    to its default textual form. *)
Context {number : Type} (str : number -> string).

(** The [params] mapping of lines 152 to 159. *)
Definition weather_params (o : AioHere) (latitude longitude : number)
    (product : WeatherProductType) (one_observation metric : bool)
    : gmap string string :=
  <["apiKey" := api_key o]>
  (<["product" := __str__ product]>
  (<["oneobservation" := if one_observation then "true" else "false"]>
  (<["metric" := if metric then "true" else "false"]>
  (<["latitude" := str latitude]>
  (<["longitude" := str longitude]> ∅))))).

Definition weather_for_coordinates (srv : transport)
    (latitude longitude : number) (product : WeatherProductType)
    (one_observation metric : bool) : M pyval :=
  o <- get_self ;;
  let params := weather_params o latitude longitude product one_observation metric in
  json_data <- request srv "GET" None PNone PNone (Some params) ;;
  node <- lift (py_get json_data (_product_node product)) ;;
  if negb (is_None node) then ret json_data
  else
    error <- lift (_get_error_from_response json_data) ;;
    raise error.

End Weather.

(** ** [AioHere.close], [__aenter__], [__aexit__] *)

Definition close : M unit :=
  o <- get_self ;;
  match _session o with
  | Some s => if _close_session o then emit (session_close s) else ret tt
  | None => ret tt
  end.

Definition __aenter__ : M AioHere := get_self.

Definition __aexit__ : M unit := close.

(** ** Sequences of calls on one client *)

Section Calls.

Context {number : Type} (str : number -> string).

(** What a caller can do with a client once it is constructed. *)
Inductive call : Type :=
| call_request (srv : transport) (method : string)
    (additional_headers : option (gmap string string))
    (data json_data : pyval) (params : option (gmap string string))
| call_weather_for_coordinates (srv : transport)
    (latitude longitude : number) (product : WeatherProductType)
    (one_observation metric : bool)
| call_close
| call_aenter
| call_aexit.

(** The state a call leaves, whether it returned or raised. *)
Definition run_call (c : call) (st : state) : state :=
  match c with
  | call_request srv method additional_headers data json_data params =>
      (request srv method additional_headers data json_data params st).2
  | call_weather_for_coordinates srv latitude longitude product one_observation metric =>
      (weather_for_coordinates str srv latitude longitude product
         one_observation metric st).2
  | call_close => (close st).2
  | call_aenter => (__aenter__ st).2
  | call_aexit => (__aexit__ st).2
  end.

Definition run (cs : list call) (st : state) : state :=
  fold_left (fun st c => run_call c st) cs st.

End Calls.

(** ** Reading the record of calls *)

(** The state with further calls recorded. *)
Definition log (es : list event) (st : state) : state :=
  {| self := self st; fresh := fresh st; calls := calls st ++ es |}.

(** The state once the session exists, and that session. *)
Definition with_session (st : state) : state := (ensure_session st).2.

Definition the_session (st : state) : session :=
  default (fresh st) (_session (self st)).

Definition is_session_close (e : event) : bool :=
  match e with session_close _ => true | _ => false end.

Definition is_close_of (s : session) (e : event) : bool :=
  match e with session_close s' => Nat.eqb s s' | _ => false end.

(** How often [close()] was called on session [s]. *)
Definition close_calls (s : session) (es : list event) : nat :=
  length (List.filter (is_close_of s) es).

(** The sessions on which [close()] was called at least once. *)
Definition closed_sessions (es : list event) : gset session :=
  list_to_set (omap (fun e => match e with session_close s => Some s | _ => None end) es).

(** None of the calls is a [close()] on a session. *)
Definition no_session_close (es : list event) : Prop :=
  Forall (fun e => is_session_close e = false) es.

(** All the calls are on the response object. *)
Definition is_response_event (e : event) : bool :=
  match e with
  | response_read | response_close | response_json | response_text => true
  | _ => false
  end.

Definition on_response (es : list event) : Prop :=
  Forall (fun e => is_response_event e = true) es.

(** The client holds session [s] without owning it. *)
Definition borrowed (s : session) (st : state) : Prop :=
  _session (self st) = Some s /\ _close_session (self st) = false.

(** The client holds session [s] and owns it. *)
Definition owned (s : session) (st : state) : Prop :=
  _session (self st) = Some s /\ _close_session (self st) = true.

(** [400 <= status < 600] *)
Definition error_status (st : Z) : Prop := 400 <= st < 600.

(** [needle] occurs in [hay]. *)
Definition occurs_in (needle hay : string) : Prop :=
  exists before after : string, hay = before ++ needle ++ after.

(** What the [except] clauses of lines 98 to 105 make of an exception. *)
Definition in_except {A : Type} (exception : exn) : res A :=
  if is_asyncio_TimeoutError exception then
    Raise (HereTimeOutError [PStr "Timeout occurred while connecting to the here API."])
  else if is_ClientError_or_gaierror exception then
    Raise (HereError [PStr "Error occurred while communicating with the here API."])
  else Raise exception.

(** ** Sample collaborators and clients *)

(** Headers holding a [Content-Type] only. *)
Definition content_type_only (value : string) : string -> option string :=
  fun name => if String.eqb name "Content-Type" then Some value else None.

(** A far end that answers every request with the same response. *)
Definition answering (response : ClientResponse) : transport :=
  fun _ _ => Ret response.

(** An exchange that fails with the given exception. *)
Definition failing (exception : exn) : transport :=
  fun _ _ => Raise exception.

(** [AioHere("key")] and [AioHere("key", session=s)] before any call. *)
Definition new_client : state :=
  {| self := __init__ "key" 10 None; fresh := 0%nat; calls := [] |}.

Definition client_with_session (s : session) : state :=
  {| self := __init__ "key" 10 (Some s); fresh := S s; calls := [] |}.

(** Status 500 with an HTML body in Latin-1: the bytes of [caf\xe9]. *)
Definition response_500_latin1 : ClientResponse :=
  {| status := 500;
     headers_get := content_type_only "text/html; charset=iso-8859-1";
     read := [x63; x61; x66; xe9];
     json := Raise (OtherError "ContentTypeError");
     text := Ret "cafe" |}.

(** Status 500 with the plain body [internal error]. *)
Definition response_500_text : ClientResponse :=
  {| status := 500;
     headers_get := content_type_only "text/plain";
     read := list_byte_of_string "internal error";
     json := Raise (OtherError "ContentTypeError");
     text := Ret "internal error" |}.

(** A response whose body decodes to the given JSON value. *)
Definition json_response (code : Z) (content_type : string) (decoded : pyval)
    : ClientResponse :=
  {| status := code;
     headers_get := content_type_only content_type;
     read := [];
     json := Ret decoded;
     text := Ret "" |}.

(** Status 204: no content, no headers. *)
Definition response_204 : ClientResponse :=
  {| status := 204;
     headers_get := fun _ => None;
     read := [];
     json := Ret PNone;
     text := Ret "" |}.

(** Status 200 with a plain-text body. *)
Definition response_200_text : ClientResponse :=
  {| status := 200;
     headers_get := content_type_only "text/plain";
     read := list_byte_of_string "hello";
     json := Raise (OtherError "ContentTypeError");
     text := Ret "hello" |}.

(** A payload whose root key for observations holds JSON [null], and one
    where it holds a list. *)
Definition payload_null_observations : gmap string pyval :=
  {["observations" := PNone]}.

Definition payload_observations : gmap string pyval :=
  {["observations" := PList [PDict {["city" := PStr "Berlin"]}]]}.

(** Integers as coordinates, printed in decimal. *)
Definition str_int (z : Z) : string := NilZero.string_of_int (Z.to_int z).

(** ** Counting calls *)

Definition is_session_new (e : event) : bool :=
  match e with ClientSession_new _ => true | _ => false end.

(** How many sessions were created. *)
Definition new_sessions (es : list event) : nat :=
  length (List.filter is_session_new es).

Definition is_session_request (e : event) : bool :=
  match e with session_request _ _ _ => true | _ => false end.

(** How many exchanges were made. *)
Definition exchanges (es : list event) : nat :=
  length (List.filter is_session_request es).

(** A call on a session is on session [s], made under the deadline [t]
    and sent to the fixed address. *)
Definition on_session (s : session) (t : Z) (e : event) : Prop :=
  match e with
  | ClientSession_new s' => s' = s
  | session_request s' t' rq => s' = s /\ t' = t /\ rq_url rq = API_URL
  | session_close s' => s' = s
  | _ => True
  end.

(** The calls that make an exchange, and the calls that close. *)
Definition is_request_call {number : Type} (c : @call number) : bool :=
  match c with
  | call_request _ _ _ _ _ _ | call_weather_for_coordinates _ _ _ _ _ _ => true
  | _ => false
  end.

Definition is_closing_call {number : Type} (c : @call number) : bool :=
  match c with
  | call_close | call_aexit => true
  | _ => false
  end.

(** * Properties *)

(** ** The product table *)

(** C4: the lookup from product to root key is a total function on the seven
    variants with the stated table, and no variant is given an empty key. *)
Theorem product_node_table :
  _product_node observation = "observations" /\
  _product_node forecast_7days = "forecasts" /\
  _product_node forecast_7days_simple = "dailyForecasts" /\
  _product_node forecast_hourly = "hourlyForecasts" /\
  _product_node forecast_astronomy = "astronomy" /\
  _product_node alerts = "alerts" /\
  _product_node nws_alerts = "nwsAlerts" /\
  (forall p : WeatherProductType, _product_node p <> "") /\
  (forall p : WeatherProductType,
      exists k : string, _product_node p = k /\ (0 < String.length k)%nat).
Proof.
  repeat split; try reflexivity.
  - intros p; destruct p; discriminate.
  - intros p; exists (_product_node p); split; [reflexivity|].
    destruct p; vm_compute; lia.
Qed.

(** The root keys are pairwise different: the table is one to one. *)
Lemma product_node_inj (p q : WeatherProductType) :
  _product_node p = _product_node q -> p = q.
Proof. destruct p, q; (reflexivity || discriminate). Qed.

(** The textual form of each variant is the value it is declared with. *)
Lemma str_product_table (p : WeatherProductType) :
  __str__ p = match p with
              | observation => "observation"
              | forecast_7days => "forecast_7days"
              | forecast_7days_simple => "forecast_7days_simple"
              | forecast_hourly => "forecast_hourly"
              | forecast_astronomy => "forecast_astronomy"
              | alerts => "alerts"
              | nws_alerts => "nws_alerts"
              end.
Proof. destruct p; reflexivity. Qed.

(** ** The error mapper *)

Lemma eq_str_true (v : pyval) (s : string) : eq_str v s = true <-> v = PStr s.
Proof.
  destruct v; simpl; try (split; [discriminate | intros [=]]).
  rewrite String.eqb_eq. split; [intros ->; reflexivity | intros [=]; assumption].
Qed.

Lemma eq_str_false (v : pyval) (s : string) : eq_str v s = false <-> v <> PStr s.
Proof.
  rewrite <- eq_str_true. destruct (eq_str v s); split; congruence.
Qed.

(** The test of lines 169 and 170 taken together. *)
Lemma error_is_unauthorized (d : gmap string pyval) :
  {d !! "error" = Some (PStr "Unauthorized")} +
  {d !! "error" <> Some (PStr "Unauthorized")}.
Proof.
  destruct (d !! "error") as [v|]; [|right; discriminate].
  destruct (eq_str v "Unauthorized") eqn:E.
  - left. apply eq_str_true in E. congruence.
  - right. apply eq_str_false in E. congruence.
Qed.

Ltac mapper_steps :=
  unfold _get_error_from_response, py_contains, py_getitem, py_get, res_bind;
  repeat match goal with
         | H : ?d !! ?k = _ |- context [?d !! ?k] => rewrite H
         end;
  simpl.

Lemma get_error_otherwise (d : gmap string pyval) :
  d !! "error" <> Some (PStr "Unauthorized") ->
  _get_error_from_response (PDict d) =
    if eq_str (default PNone (d !! "Type")) "Invalid Request"
    then Ret (HereInvalidRequestError [default PNone (d !! "Message")])
    else Ret (HereError [default PNone (d !! "Message")]).
Proof.
  intros Hne. mapper_steps.
  destruct (d !! "error") as [v|] eqn:E; simpl.
  - destruct (eq_str v "Unauthorized") eqn:Ev; [|reflexivity].
    apply eq_str_true in Ev. congruence.
  - reflexivity.
Qed.

Lemma get_error_unauthorized (d : gmap string pyval) (description : pyval) :
  d !! "error" = Some (PStr "Unauthorized") ->
  d !! "error_description" = Some description ->
  _get_error_from_response (PDict d) = Ret (HereUnauthorizedError [description]).
Proof.
  intros He Hd. mapper_steps. reflexivity.
Qed.

Lemma get_error_missing_description (d : gmap string pyval) :
  d !! "error" = Some (PStr "Unauthorized") ->
  d !! "error_description" = None ->
  _get_error_from_response (PDict d) = Raise (KeyError "error_description").
Proof.
  intros He Hd. mapper_steps. reflexivity.
Qed.

Lemma get_error_invalid_request (d : gmap string pyval) :
  d !! "error" <> Some (PStr "Unauthorized") ->
  d !! "Type" = Some (PStr "Invalid Request") ->
  _get_error_from_response (PDict d) =
    Ret (HereInvalidRequestError [default PNone (d !! "Message")]).
Proof.
  intros Hne Ht. rewrite get_error_otherwise by assumption.
  rewrite Ht. reflexivity.
Qed.

Lemma get_error_generic (d : gmap string pyval) :
  d !! "error" <> Some (PStr "Unauthorized") ->
  d !! "Type" <> Some (PStr "Invalid Request") ->
  _get_error_from_response (PDict d) =
    Ret (HereError [default PNone (d !! "Message")]).
Proof.
  intros Hne Ht. rewrite get_error_otherwise by assumption.
  destruct (eq_str _ _) eqn:E; [|reflexivity].
  apply eq_str_true in E. destruct (d !! "Type"); simpl in E; congruence.
Qed.

(** On a mapping the mapper returns one of the four kinds, unless the
    payload says ["Unauthorized"] and has no [error_description]. *)
Lemma get_error_returns (d : gmap string pyval) :
  (d !! "error" = Some (PStr "Unauthorized") -> is_Some (d !! "error_description")) ->
  exists e : exn, _get_error_from_response (PDict d) = Ret e /\ is_HereError e = true.
Proof.
  intros Hd. destruct (error_is_unauthorized d) as [He|He].
  - destruct (Hd He) as [x Hx].
    rewrite (get_error_unauthorized d x He Hx). eauto.
  - rewrite get_error_otherwise by assumption.
    destruct (eq_str _ _); eauto.
Qed.

(** Whatever a mapping makes the mapper return is one of the four kinds. *)
Lemma get_error_kind (d : gmap string pyval) (e : exn) :
  _get_error_from_response (PDict d) = Ret e -> is_HereError e = true.
Proof.
  destruct (error_is_unauthorized d) as [He|He].
  - destruct (d !! "error_description") as [x|] eqn:Hx.
    + rewrite (get_error_unauthorized d x He Hx). intros [= <-]. reflexivity.
    + rewrite (get_error_missing_description d He Hx). discriminate.
  - rewrite get_error_otherwise by assumption.
    destruct (eq_str _ _); intros [= <-]; reflexivity.
Qed.

(** C1: on the mapping [{"error": "Unauthorized"}], which has no
    [error_description], the mapper does not return an error kind: the
    subscript of line 171 raises [KeyError]. *)
Theorem get_error_unauthorized_without_description :
  _get_error_from_response (PDict {["error" := PStr "Unauthorized"]})
    = Raise (KeyError "error_description") /\
  ~ (exists e : exn,
        _get_error_from_response (PDict {["error" := PStr "Unauthorized"]}) = Ret e).
Proof.
  assert (H : _get_error_from_response (PDict {["error" := PStr "Unauthorized"]})
              = Raise (KeyError "error_description")).
  { apply get_error_missing_description; reflexivity. }
  split; [exact H|]. rewrite H. intros [e [=]].
Qed.

(** ** The record of calls and the parts of [request] *)

Lemma log_nil (st : state) : log [] st = st.
Proof. destruct st; unfold log; simpl. by rewrite app_nil_r. Qed.

Lemma log_log (es es' : list event) (st : state) :
  log es' (log es st) = log (es ++ es') st.
Proof. unfold log; simpl. by rewrite app_assoc. Qed.

Lemma self_log (es : list event) (st : state) : self (log es st) = self st.
Proof. reflexivity. Qed.

Lemma calls_log (es : list event) (st : state) :
  calls (log es st) = (calls st ++ es)%list.
Proof. reflexivity. Qed.

Lemma ensure_session_eq (st : state) : ensure_session st = (Ret tt, with_session st).
Proof.
  unfold with_session, ensure_session, bind, get_self.
  destruct (_session (self st)); reflexivity.
Qed.

Lemma with_session_some (st : state) (s : session) :
  _session (self st) = Some s -> with_session st = st.
Proof.
  intros H. unfold with_session, ensure_session, bind, get_self. by rewrite H.
Qed.

Lemma with_session_none (st : state) :
  _session (self st) = None ->
  with_session st =
    {| self := {| _session := Some (fresh st); _close_session := true;
                  api_key := api_key (self st);
                  request_timeout := request_timeout (self st) |};
       fresh := S (fresh st);
       calls := (calls st ++ [ClientSession_new (fresh st)])%list |}.
Proof.
  intros H. unfold with_session, ensure_session, bind, get_self. by rewrite H.
Qed.

Lemma session_with_session (st : state) :
  _session (self (with_session st)) = Some (the_session st).
Proof.
  unfold the_session. destruct (_session (self st)) as [s|] eqn:E.
  - by rewrite (with_session_some st s E), E.
  - by rewrite (with_session_none st E).
Qed.

Lemma request_timeout_with_session (st : state) :
  request_timeout (self (with_session st)) = request_timeout (self st).
Proof.
  destruct (_session (self st)) as [s|] eqn:E.
  - by rewrite (with_session_some st s E).
  - by rewrite (with_session_none st E).
Qed.

Lemma api_key_with_session (st : state) :
  api_key (self (with_session st)) = api_key (self st).
Proof.
  destruct (_session (self st)) as [s|] eqn:E.
  - by rewrite (with_session_some st s E).
  - by rewrite (with_session_none st E).
Qed.

(** The session is created at most once: a second [ensure_session] changes
    nothing. *)
Lemma with_session_idem (st : state) : with_session (with_session st) = with_session st.
Proof. exact (with_session_some _ _ (session_with_session st)). Qed.

Lemma exchange_eq (srv : transport) (rq : http_request) (st : state) (s : session) :
  _session (self st) = Some s ->
  exchange srv rq st =
    (match srv (request_timeout (self st)) rq with
     | Ret response => Ret response
     | Raise exception => in_except exception
     end,
     log [session_request s (request_timeout (self st)) rq] st).
Proof.
  intros H. unfold exchange, bind, get_self, try_except. rewrite H.
  unfold await_session_request, bind, emit, lift, in_except, raise; simpl.
  destruct (srv _ rq) as [r|e]; [reflexivity|].
  destruct (is_asyncio_TimeoutError e); [reflexivity|].
  destruct (is_ClientError_or_gaierror e); reflexivity.
Qed.

(** [request] is the exchange on the session, made once the session exists,
    followed by the treatment of the response. *)
Lemma request_eq (srv : transport) (method : string)
    (additional_headers : option (gmap string string))
    (data json_data : pyval) (params : option (gmap string string)) (st : state) :
  request srv method additional_headers data json_data params st =
    match srv (request_timeout (self st))
            (session_request_args method additional_headers data json_data params) with
    | Ret response =>
        handle_response response
          (log [session_request (the_session st) (request_timeout (self st))
                  (session_request_args method additional_headers data json_data params)]
             (with_session st))
    | Raise exception =>
        (in_except exception,
         log [session_request (the_session st) (request_timeout (self st))
                (session_request_args method additional_headers data json_data params)]
           (with_session st))
    end.
Proof.
  unfold request, bind. rewrite ensure_session_eq.
  rewrite (exchange_eq srv _ _ _ (session_with_session st)).
  rewrite request_timeout_with_session.
  destruct (srv _ _) as [r|e]; [reflexivity|].
  unfold in_except.
  destruct (is_asyncio_TimeoutError e); [reflexivity|].
  destruct (is_ClientError_or_gaierror e); reflexivity.
Qed.

Lemma error_status_div (st : Z) : st `div` 100 ∈ [4; 5] <-> error_status st.
Proof.
  unfold error_status. rewrite !elem_of_cons, elem_of_nil.
  pose proof (Z.div_mod st 100 ltac:(lia)).
  pose proof (Z.mod_pos_bound st 100 ltac:(lia)).
  lia.
Qed.

Lemma append_String (c : ascii) (s t : string) :
  String c s ++ t = String c (s ++ t).
Proof. reflexivity. Qed.

Lemma prefix_append (needle hay : string) :
  String.prefix needle hay = true <-> exists after : string, hay = needle ++ after.
Proof.
  revert hay. induction needle as [|a needle IH]; intros hay.
  - split; [intros _; by exists hay | intros _; by destruct hay].
  - destruct hay as [|b hay]; simpl.
    + split; [discriminate | intros [after [=]]].
    + destruct (ascii_dec a b) as [->|Hne].
      * rewrite IH. split; intros [after H]; exists after;
          rewrite append_String in *; congruence.
      * split; [discriminate|].
        intros [after H]. rewrite append_String in H. congruence.
Qed.

(** [str_in] is the substring test. *)
Lemma str_in_occurs (needle hay : string) :
  str_in needle hay = true <-> occurs_in needle hay.
Proof.
  unfold occurs_in. induction hay as [|c hay IH]; cbn [str_in].
  - rewrite orb_false_r, prefix_append. split.
    + intros [after H]. by exists "", after.
    + intros (before & after & H). exists after.
      destruct before; [exact H | discriminate].
  - rewrite orb_true_iff, IH, prefix_append. split.
    + intros [[after H] | (before & after & ->)].
      * by exists "", after.
      * by exists (String c before), after.
    + intros (before & after & H). destruct before as [|c' before].
      * left. by exists after.
      * right. rewrite append_String in H. injection H as _ ->.
        by exists before, after.
Qed.

Lemma str_in_not_occurs (needle hay : string) :
  str_in needle hay = false <-> ~ occurs_in needle hay.
Proof.
  rewrite <- str_in_occurs. destruct (str_in needle hay); split; congruence.
Qed.

(** ** What is made of a response *)

Ltac run_handle :=
  repeat (progress unfold handle_response, bind, await_read, await_json,
            await_text, emit, lift, ret, raise, log);
  cbn [fst snd self fresh calls].

Ltac same_state :=
  cbn [self fresh calls res_bind fst snd]; rewrite <- ?app_assoc; reflexivity.

Lemma handle_response_error_json (response : ClientResponse) (st : state) :
  error_status (status response) ->
  default "" (headers_get response "Content-Type") = "application/json" ->
  handle_response response st =
    (decoded <-? json response ;;
     error <-? _get_error_from_response decoded ;;
     Raise error,
     log [response_read; response_close; response_json] st).
Proof.
  intros Hs Hc. run_handle.
  rewrite bool_decide_eq_true_2 by (by apply error_status_div).
  rewrite Hc, String.eqb_refl.
  destruct (json response) as [j|e]; [|same_state].
  cbn [res_bind]. destruct (_get_error_from_response j); same_state.
Qed.

Lemma handle_response_error_other (response : ClientResponse) (st : state) :
  error_status (status response) ->
  default "" (headers_get response "Content-Type") <> "application/json" ->
  handle_response response st =
    (message <-? bytes_decode_utf8 (read response) ;;
     Raise (HereError [PInt (status response); PDict {["message" := PStr message]}]),
     log [response_read; response_close] st).
Proof.
  intros Hs Hc. run_handle.
  rewrite bool_decide_eq_true_2 by (by apply error_status_div).
  apply String.eqb_neq in Hc. rewrite Hc.
  destruct (bytes_decode_utf8 (read response)); same_state.
Qed.

Lemma handle_response_204 (response : ClientResponse) (st : state) :
  status response = 204 ->
  handle_response response st = (Ret PNone, log [response_close] st).
Proof.
  intros Hs. run_handle. rewrite Hs.
  rewrite bool_decide_eq_false_2 by (rewrite error_status_div; unfold error_status; lia).
  same_state.
Qed.

Lemma handle_response_json (response : ClientResponse) (st : state) :
  ~ error_status (status response) ->
  status response <> 204 ->
  str_in "application/json" (default "" (headers_get response "Content-Type")) = true ->
  handle_response response st = (json response, log [response_json] st).
Proof.
  intros Hs Hn Hc. run_handle.
  rewrite bool_decide_eq_false_2 by (by rewrite error_status_div).
  apply Z.eqb_neq in Hn. rewrite Hn, Hc. same_state.
Qed.

Lemma handle_response_text (response : ClientResponse) (st : state) :
  ~ error_status (status response) ->
  status response <> 204 ->
  str_in "application/json" (default "" (headers_get response "Content-Type")) = false ->
  handle_response response st =
    (body <-? text response ;; Ret (PDict {["message" := PStr body]}),
     log [response_text] st).
Proof.
  intros Hs Hn Hc. run_handle.
  rewrite bool_decide_eq_false_2 by (by rewrite error_status_div).
  apply Z.eqb_neq in Hn. rewrite Hn, Hc.
  destruct (text response); same_state.
Qed.

(** ** [request]: transport failures *)

(** C9: when the exchange ends in [asyncio.TimeoutError], [request] raises
    the timeout kind carrying "Timeout occurred while connecting to the here
    API."; when it ends in an [aiohttp.ClientError] or a [socket.gaierror]
    that is not a timeout, [request] raises the generic kind carrying "Error
    occurred while communicating with the here API.".  Only the call on the
    session is recorded. *)
Theorem request_transport_failure (srv : transport) (method : string)
    (additional_headers : option (gmap string string))
    (data json_data : pyval) (params : option (gmap string string))
    (st : state) (exception : exn) :
  let rq := session_request_args method additional_headers data json_data params in
  let out := request srv method additional_headers data json_data params st in
  srv (request_timeout (self st)) rq = Raise exception ->
  (is_asyncio_TimeoutError exception = true ->
   out.1 = Raise (HereTimeOutError
                    [PStr "Timeout occurred while connecting to the here API."])) /\
  (is_asyncio_TimeoutError exception = false ->
   is_ClientError_or_gaierror exception = true ->
   out.1 = Raise (HereError
                    [PStr "Error occurred while communicating with the here API."])) /\
  out.2 = log [session_request (the_session st) (request_timeout (self st)) rq]
              (with_session st).
Proof.
  intros rq out Hsrv. subst out. rewrite request_eq. fold rq. rewrite Hsrv.
  unfold in_except. repeat split.
  - intros ->. reflexivity.
  - intros -> ->. reflexivity.
Qed.

Lemma request_transport_failure_witness :
  (request (failing socket_gaierror) "GET" None PNone PNone None new_client).1
    = Raise (HereError [PStr "Error occurred while communicating with the here API."]).
Proof.
  apply (request_transport_failure (failing socket_gaierror) "GET" None PNone PNone
           None new_client socket_gaierror); reflexivity.
Defined.

(** The messages are not the ones without "here" and without the full stop. *)
Lemma request_timeout_message_differs :
  (request (failing asyncio_TimeoutError) "GET" None PNone PNone None new_client).1
    = Raise (HereTimeOutError
               [PStr "Timeout occurred while connecting to the here API."]) /\
  (request (failing asyncio_TimeoutError) "GET" None PNone PNone None new_client).1
    <> Raise (HereTimeOutError [PStr "Timeout occurred while connecting to the API"]) /\
  (request (failing aiohttp_ClientError) "GET" None PNone PNone None new_client).1
    <> Raise (HereError [PStr "Error occurred while communicating with the API"]).
Proof.
  split; [|split]; [vm_compute; reflexivity | vm_compute; discriminate ..].
Qed.

(** ** [request]: status 204 *)

Lemma request_no_content (srv : transport) (method : string)
    (additional_headers : option (gmap string string))
    (data json_data : pyval) (params : option (gmap string string))
    (st : state) (response : ClientResponse) :
  let rq := session_request_args method additional_headers data json_data params in
  srv (request_timeout (self st)) rq = Ret response ->
  status response = 204 ->
  request srv method additional_headers data json_data params st =
    (Ret PNone,
     log [session_request (the_session st) (request_timeout (self st)) rq;
          response_close] (with_session st)).
Proof.
  intros rq Hsrv Hs. rewrite request_eq. fold rq. rewrite Hsrv.
  rewrite handle_response_204 by assumption. by rewrite log_log.
Qed.

(** C6: a response with status 204 makes [request] return [None], whatever
    its headers and body are; the response is closed and nothing is decoded. *)
Theorem request_204_returns_none (srv : transport) (method : string)
    (additional_headers : option (gmap string string))
    (data json_data : pyval) (params : option (gmap string string))
    (st : state) (response : ClientResponse) :
  let rq := session_request_args method additional_headers data json_data params in
  srv (request_timeout (self st)) rq = Ret response ->
  status response = 204 ->
  request srv method additional_headers data json_data params st =
    (Ret PNone,
     log [session_request (the_session st) (request_timeout (self st)) rq;
          response_close] (with_session st)).
Proof.
  intros rq Hsrv Hs. rewrite request_eq. fold rq. rewrite Hsrv.
  assert (Hne : ~ error_status (status response))
    by (unfold error_status; lia).
  unfold handle_response, bind, emit, ret.
  rewrite bool_decide_eq_false_2 by (by rewrite error_status_div).
  rewrite Hs. simpl. unfold log; simpl. by rewrite <- app_assoc.
Qed.

Lemma request_204_returns_none_witness :
  status response_204 = 204 /\
  (request (answering response_204) "GET" None PNone PNone None new_client).1 = Ret PNone.
Proof.
  split; [reflexivity|].
  rewrite (request_204_returns_none (answering response_204) "GET" None PNone PNone
             None new_client response_204); reflexivity.
Defined.

(** ** [request]: other statuses below 400 or from 600 *)

(** C7: for a response that is neither an error nor a 204, [request] gives
    what [response.json()] gives when [application/json] occurs anywhere in
    the [Content-Type] header, and otherwise [{"message": body}] for the
    [body] that [response.text()] gives.  The test is by substring: a header
    such as [application/json; charset=utf-8] passes it and is not equal to
    [application/json]. *)
Theorem request_success_body (srv : transport) (method : string)
    (additional_headers : option (gmap string string))
    (data json_data : pyval) (params : option (gmap string string))
    (st : state) (response : ClientResponse) :
  let rq := session_request_args method additional_headers data json_data params in
  let sent := session_request (the_session st) (request_timeout (self st)) rq in
  let content_type := default "" (headers_get response "Content-Type") in
  srv (request_timeout (self st)) rq = Ret response ->
  ~ error_status (status response) ->
  status response <> 204 ->
  (occurs_in "application/json" content_type ->
   request srv method additional_headers data json_data params st =
     (json response, log [sent; response_json] (with_session st))) /\
  (~ occurs_in "application/json" content_type ->
   request srv method additional_headers data json_data params st =
     (body <-? text response ;; Ret (PDict {["message" := PStr body]}),
      log [sent; response_text] (with_session st))) /\
  (occurs_in "application/json" "application/json; charset=utf-8" /\
   "application/json; charset=utf-8" <> "application/json").
Proof.
  intros rq sent content_type Hsrv Hs Hn. repeat split.
  - intros Hc. apply str_in_occurs in Hc.
    rewrite request_eq. fold rq. rewrite Hsrv.
    rewrite handle_response_json by assumption. by rewrite log_log.
  - intros Hc. apply str_in_not_occurs in Hc.
    rewrite request_eq. fold rq. rewrite Hsrv.
    rewrite handle_response_text by assumption. by rewrite log_log.
  - by exists "", "; charset=utf-8".
  - discriminate.
Qed.

Lemma request_success_body_witness :
  (request (answering response_200_text) "GET" None PNone PNone None new_client).1
    = Ret (PDict {["message" := PStr "hello"]}).
Proof.
  pose proof (request_success_body (answering response_200_text) "GET" None PNone PNone
                None new_client response_200_text) as H.
  destruct H as (_ & H & _).
  - reflexivity.
  - unfold error_status; simpl; lia.
  - discriminate.
  - rewrite H; [reflexivity|].
    apply str_in_not_occurs. reflexivity.
Defined.

(** ** [request]: statuses from 400 to 599 *)

Lemma bytes_decode_utf8_valid (contents : list byte) :
  valid_utf8 contents = true ->
  bytes_decode_utf8 contents = Ret (string_of_list_byte contents).
Proof. intros H. unfold bytes_decode_utf8. by rewrite H. Qed.

Lemma bytes_decode_utf8_invalid (contents : list byte) :
  valid_utf8 contents = false ->
  bytes_decode_utf8 contents = Raise UnicodeDecodeError.
Proof. intros H. unfold bytes_decode_utf8. by rewrite H. Qed.

(** A status from 400 to 599 never makes [request] return. *)
Lemma handle_response_error_raises (response : ClientResponse) (st : state) :
  error_status (status response) ->
  exists e : exn, (handle_response response st).1 = Raise e.
Proof.
  intros Hs.
  destruct (String.eqb_spec (default "" (headers_get response "Content-Type"))
              "application/json") as [Hc|Hc].
  - rewrite handle_response_error_json by assumption. cbn [fst].
    destruct (json response) as [j|e]; cbn [res_bind]; [|eauto].
    destruct (_get_error_from_response j); eauto.
  - rewrite handle_response_error_other by assumption. cbn [fst].
    destruct (bytes_decode_utf8 (read response)); cbn [res_bind]; eauto.
Qed.

(** C2: for a response with status in [400,600), [request] reads the body
    and closes the response before anything else; with [Content-Type] exactly
    [application/json] it then decodes the body and, when the decoder gives a
    value on which the error mapper returns an error, raises that error;
    with any other [Content-Type], when the body is well-formed UTF-8, it
    raises the generic kind carrying the status and [{"message": text}].  No
    such status makes [request] return. *)
Theorem request_error_status (srv : transport) (method : string)
    (additional_headers : option (gmap string string))
    (data json_data : pyval) (params : option (gmap string string))
    (st : state) (response : ClientResponse) :
  let rq := session_request_args method additional_headers data json_data params in
  let sent := session_request (the_session st) (request_timeout (self st)) rq in
  let content_type := default "" (headers_get response "Content-Type") in
  let out := request srv method additional_headers data json_data params st in
  srv (request_timeout (self st)) rq = Ret response ->
  error_status (status response) ->
  (exists later : list event,
      calls out.2
      = (calls (with_session st) ++ sent :: response_read :: response_close :: later)%list /\
      (later = [] \/ later = [response_json])) /\
  (content_type = "application/json" ->
   forall (decoded : pyval) (error : exn),
     json response = Ret decoded ->
     _get_error_from_response decoded = Ret error ->
     out = (Raise error,
            log [sent; response_read; response_close; response_json] (with_session st))) /\
  (content_type <> "application/json" ->
   valid_utf8 (read response) = true ->
   out = (Raise (HereError
                   [PInt (status response);
                    PDict {["message" := PStr (string_of_list_byte (read response))]}]),
          log [sent; response_read; response_close] (with_session st))) /\
  (forall v : pyval, out.1 <> Ret v).
Proof.
  intros rq sent content_type out Hsrv Hs.
  assert (Hout : out = handle_response response (log [sent] (with_session st))).
  { subst out. rewrite request_eq. fold rq. by rewrite Hsrv. }
  rewrite Hout. clear Hout out. repeat split.
  - destruct (String.eqb_spec content_type "application/json") as [Hc|Hc].
    + rewrite handle_response_error_json by assumption.
      exists [response_json]. split; [|by right].
      cbn [snd]. rewrite log_log, calls_log. reflexivity.
    + rewrite handle_response_error_other by assumption.
      exists []. split; [|by left].
      cbn [snd]. rewrite log_log, calls_log. reflexivity.
  - intros Hc decoded error Hj He.
    rewrite handle_response_error_json by assumption.
    rewrite Hj. cbn [res_bind]. rewrite He, log_log. reflexivity.
  - intros Hc Hv.
    rewrite handle_response_error_other by assumption.
    rewrite (bytes_decode_utf8_valid _ Hv), log_log. reflexivity.
  - intros v Hv.
    destruct (handle_response_error_raises response (log [sent] (with_session st)) Hs)
      as [e He].
    congruence.
Qed.

Lemma request_error_status_witness :
  error_status (status response_500_text) /\
  (request (answering response_500_text) "GET" None PNone PNone None new_client).1
    = Raise (HereError [PInt 500; PDict {["message" := PStr "internal error"]}]).
Proof.
  assert (Hs : error_status (status response_500_text))
    by (unfold error_status; simpl; lia).
  split; [exact Hs|].
  destruct (request_error_status (answering response_500_text) "GET" None PNone PNone
              None new_client response_500_text eq_refl Hs) as (_ & _ & H & _).
  rewrite H; [reflexivity | discriminate | reflexivity].
Defined.

(** A status 500 whose body is Latin-1 text: the header is not
    [application/json], and what [request] raises is the decoder's
    [UnicodeDecodeError], not the generic kind. *)
Lemma request_error_body_not_utf8 :
  error_status (status response_500_latin1) /\
  default "" (headers_get response_500_latin1 "Content-Type") <> "application/json" /\
  (request (answering response_500_latin1) "GET" None PNone PNone None new_client).1
    = Raise UnicodeDecodeError /\
  ~ (exists args : list pyval,
        (request (answering response_500_latin1) "GET" None PNone PNone None new_client).1
        = Raise (HereError args)).
Proof.
  assert (H : (request (answering response_500_latin1) "GET" None PNone PNone None
                 new_client).1 = Raise UnicodeDecodeError)
    by (vm_compute; reflexivity).
  split; [unfold error_status; simpl; lia|].
  split; [discriminate|].
  split; [exact H|].
  rewrite H. intros [args [=]].
Qed.

(** ** [weather_for_coordinates] *)

Section WeatherProperties.

Context {number : Type} (str : number -> string).

Lemma weather_eq (srv : transport) (latitude longitude : number)
    (product : WeatherProductType) (one_observation metric : bool) (st : state) :
  weather_for_coordinates str srv latitude longitude product one_observation metric st =
    match request srv "GET" None PNone PNone
            (Some (weather_params str (self st) latitude longitude product
                     one_observation metric)) st with
    | (Ret json_data, st') =>
        match py_get json_data (_product_node product) with
        | Ret node =>
            if negb (is_None node) then (Ret json_data, st')
            else match _get_error_from_response json_data with
                 | Ret error => (Raise error, st')
                 | Raise e => (Raise e, st')
                 end
        | Raise e => (Raise e, st')
        end
    | (Raise e, st') => (Raise e, st')
    end.
Proof.
  unfold weather_for_coordinates, bind, get_self, lift, ret, raise.
  destruct (request _ _ _ _ _ _ st) as [[json_data|e] st']; [|reflexivity].
  destruct (py_get json_data _) as [node|e]; [|reflexivity].
  destruct (negb (is_None node)); [reflexivity|].
  destruct (_get_error_from_response json_data); reflexivity.
Qed.

Lemma is_None_false (v : pyval) : v <> PNone -> is_None v = false.
Proof. destruct v; simpl; congruence. Qed.

(** C3: when [request] has returned a mapping, [weather_for_coordinates]
    looks up the key the product maps to.  If the key holds a value other
    than [None], the mapping is returned unchanged.  If the key is absent or
    holds [None], the mapper's error is raised whenever the mapper returns
    one: for a payload that is neither ["Unauthorized"] nor of type
    ["Invalid Request"] that is the generic kind carrying the payload's
    [Message], [None] when there is none. *)
Theorem weather_checks_root_key (srv : transport) (latitude longitude : number)
    (product : WeatherProductType) (one_observation metric : bool)
    (st st' : state) (payload : gmap string pyval) :
  let params := weather_params str (self st) latitude longitude product
                  one_observation metric in
  let out := weather_for_coordinates str srv latitude longitude product
               one_observation metric st in
  request srv "GET" None PNone PNone (Some params) st = (Ret (PDict payload), st') ->
  (forall v : pyval,
      payload !! _product_node product = Some v -> v <> PNone ->
      out = (Ret (PDict payload), st')) /\
  (payload !! _product_node product = None \/
   payload !! _product_node product = Some PNone ->
   (forall error : exn,
       _get_error_from_response (PDict payload) = Ret error ->
       out = (Raise error, st')) /\
   (payload !! "error" <> Some (PStr "Unauthorized") ->
    payload !! "Type" <> Some (PStr "Invalid Request") ->
    out = (Raise (HereError [default PNone (payload !! "Message")]), st'))).
Proof.
  intros params out Hrq. subst out. rewrite weather_eq. fold params. rewrite Hrq.
  cbn [py_get]. split.
  - intros v Hv Hn. rewrite Hv. simpl.
    by rewrite (is_None_false v Hn).
  - intros Hnode.
    assert (Hd : default PNone (payload !! _product_node product) = PNone)
      by (destruct Hnode as [-> | ->]; reflexivity).
    rewrite Hd. simpl. split.
    + intros error ->. reflexivity.
    + intros He Ht. by rewrite (get_error_generic payload He Ht).
Qed.

(** C10: when [request] has returned [None], as it does on status 204,
    [weather_for_coordinates] neither returns nor raises one of the four
    kinds: calling [get] on [None] raises [AttributeError]. *)
Theorem weather_on_empty_result (srv : transport) (latitude longitude : number)
    (product : WeatherProductType) (one_observation metric : bool)
    (st st' : state) :
  let params := weather_params str (self st) latitude longitude product
                  one_observation metric in
  let out := weather_for_coordinates str srv latitude longitude product
               one_observation metric st in
  request srv "GET" None PNone PNone (Some params) st = (Ret PNone, st') ->
  out = (Raise (AttributeError "NoneType" "get"), st') /\
  (forall v : pyval, out.1 <> Ret v) /\
  (forall e : exn, out.1 = Raise e -> is_HereError e = false).
Proof.
  intros params out Hrq.
  assert (Hout : out = (Raise (AttributeError "NoneType" "get"), st')).
  { subst out. rewrite weather_eq. fold params. by rewrite Hrq. }
  rewrite Hout. cbn [fst]. repeat split.
  - discriminate.
  - intros e [= <-]. reflexivity.
Qed.

(** Status 204 is such a case. *)
Lemma weather_on_204 (srv : transport) (latitude longitude : number)
    (product : WeatherProductType) (one_observation metric : bool)
    (st : state) (response : ClientResponse) :
  srv (request_timeout (self st))
      (session_request_args "GET" None PNone PNone
         (Some (weather_params str (self st) latitude longitude product
                  one_observation metric))) = Ret response ->
  status response = 204 ->
  (weather_for_coordinates str srv latitude longitude product
     one_observation metric st).1 = Raise (AttributeError "NoneType" "get").
Proof.
  intros Hsrv Hs. rewrite weather_eq.
  by rewrite (request_no_content srv _ _ _ _ _ st response Hsrv Hs).
Qed.

End WeatherProperties.

Lemma weather_checks_root_key_witness :
  (weather_for_coordinates str_int
     (answering (json_response 200 "application/json" (PDict payload_observations)))
     52 13 observation true true new_client).1 = Ret (PDict payload_observations).
Proof.
  destruct (weather_checks_root_key str_int
              (answering (json_response 200 "application/json" (PDict payload_observations)))
              52 13 observation true true new_client
              (request (answering (json_response 200 "application/json"
                                     (PDict payload_observations)))
                 "GET" None PNone PNone
                 (Some (weather_params str_int (self new_client) 52 13 observation
                          true true)) new_client).2
              payload_observations) as [H _].
  - vm_compute. reflexivity.
  - rewrite (H (PList [PDict {["city" := PStr "Berlin"]}])).
    + reflexivity.
    + reflexivity.
    + discriminate.
Defined.

(** The root key is present and holds [null]: the payload is not returned. *)
Lemma weather_root_key_null :
  let srv := answering (json_response 200 "application/json"
                          (PDict payload_null_observations)) in
  (request srv "GET" None PNone PNone
     (Some (weather_params str_int (self new_client) 52 13 observation true true))
     new_client).1 = Ret (PDict payload_null_observations) /\
  is_Some (payload_null_observations !! _product_node observation) /\
  (weather_for_coordinates str_int srv 52 13 observation true true new_client).1
    = Raise (HereError [PNone]) /\
  (weather_for_coordinates str_int srv 52 13 observation true true new_client).1
    <> Ret (PDict payload_null_observations).
Proof.
  intros srv.
  assert (H : (weather_for_coordinates str_int srv 52 13 observation true true
                 new_client).1 = Raise (HereError [PNone]))
    by (vm_compute; reflexivity).
  split; [vm_compute; reflexivity|].
  split; [exists PNone; reflexivity|].
  split; [exact H|].
  rewrite H. discriminate.
Qed.

Lemma weather_on_empty_result_witness :
  (weather_for_coordinates str_int (answering response_204) 52 13 forecast_hourly
     true false new_client).1 = Raise (AttributeError "NoneType" "get").
Proof.
  destruct (weather_on_empty_result str_int (answering response_204) 52 13
              forecast_hourly true false new_client
              (request (answering response_204) "GET" None PNone PNone
                 (Some (weather_params str_int (self new_client) 52 13 forecast_hourly
                          true false)) new_client).2) as [H _].
  - vm_compute. reflexivity.
  - rewrite H. reflexivity.
Defined.

(** ** The calls a request makes *)

Lemma on_response_no_close (es : list event) : on_response es -> no_session_close es.
Proof.
  unfold on_response, no_session_close. intros H.
  eapply Forall_impl; [exact H|].
  intros e; destruct e; simpl; congruence.
Qed.

Lemma handle_response_calls (response : ClientResponse) (st : state) :
  exists es : list event,
    (handle_response response st).2 = log es st /\ on_response es.
Proof.
  destruct (decide (status response `div` 100 ∈ [4; 5])) as [Hs|Hs];
    rewrite error_status_div in Hs.
  - destruct (String.eqb_spec (default "" (headers_get response "Content-Type"))
                "application/json") as [Hc|Hc].
    + rewrite handle_response_error_json by assumption.
      eexists; split; [reflexivity | repeat constructor].
    + rewrite handle_response_error_other by assumption.
      eexists; split; [reflexivity | repeat constructor].
  - destruct (decide (status response = 204)) as [Hn|Hn].
    + rewrite handle_response_204 by assumption.
      eexists; split; [reflexivity | repeat constructor].
    + destruct (str_in "application/json"
                  (default "" (headers_get response "Content-Type"))) eqn:Hc.
      * rewrite handle_response_json by assumption.
        eexists; split; [reflexivity | repeat constructor].
      * rewrite handle_response_text by assumption.
        eexists; split; [reflexivity | repeat constructor].
Qed.

(** Whatever the outcome, [request] makes the session exist, calls it once
    with the arguments built from its own, and then only touches the
    response. *)
Lemma request_calls (srv : transport) (method : string)
    (additional_headers : option (gmap string string))
    (data json_data : pyval) (params : option (gmap string string)) (st : state) :
  exists es : list event,
    (request srv method additional_headers data json_data params st).2
    = log (session_request (the_session st) (request_timeout (self st))
             (session_request_args method additional_headers data json_data params)
           :: es) (with_session st)
    /\ on_response es.
Proof.
  rewrite request_eq. destruct (srv _ _) as [response|e].
  - destruct (handle_response_calls response
                (log [session_request (the_session st) (request_timeout (self st))
                        (session_request_args method additional_headers data
                           json_data params)] (with_session st)))
      as (es & -> & Hes).
    exists es. by rewrite log_log.
  - exists []. split; [reflexivity | constructor].
Qed.

Section CallProperties.

Context {number : Type} (str : number -> string).

Lemma weather_state (srv : transport) (latitude longitude : number)
    (product : WeatherProductType) (one_observation metric : bool) (st : state) :
  (weather_for_coordinates str srv latitude longitude product one_observation metric st).2
  = (request srv "GET" None PNone PNone
       (Some (weather_params str (self st) latitude longitude product
                one_observation metric)) st).2.
Proof.
  rewrite weather_eq.
  destruct (request _ _ _ _ _ _ st) as [[json_data|e] st']; [|reflexivity].
  destruct (py_get json_data _) as [node|e]; [|reflexivity].
  destruct (negb (is_None node)); [reflexivity|].
  destruct (_get_error_from_response json_data); reflexivity.
Qed.

(** C5: the mapping built by [weather_for_coordinates] has exactly the six
    keys, with the credential as stored, the variant's value, ["true"] or
    ["false"] for the two booleans and the coordinates through [str]; it is
    what the one call on the session carries as [params], with method
    [GET] and no body, and every later call is on the response. *)
Theorem weather_request_params (srv : transport) (latitude longitude : number)
    (product : WeatherProductType) (one_observation metric : bool) (st : state) :
  let params := weather_params str (self st) latitude longitude product
                  one_observation metric in
  dom params = ({["apiKey"; "product"; "oneobservation"; "metric";
                  "latitude"; "longitude"]} : gset string) /\
  params !! "apiKey" = Some (api_key (self st)) /\
  params !! "product" = Some (_value_ product) /\
  params !! "oneobservation" = Some (if one_observation then "true" else "false") /\
  params !! "metric" = Some (if metric then "true" else "false") /\
  params !! "latitude" = Some (str latitude) /\
  params !! "longitude" = Some (str longitude) /\
  exists later : list event,
    calls (weather_for_coordinates str srv latitude longitude product
             one_observation metric st).2
    = (calls (with_session st)
       ++ session_request (the_session st) (request_timeout (self st))
            (session_request_args "GET" None PNone PNone (Some params))
          :: later)%list
    /\ on_response later.
Proof.
  intros params. split_and!.
  - subst params. unfold weather_params.
    rewrite !dom_insert_L, dom_empty_L. set_solver.
  - reflexivity.
  - reflexivity.
  - reflexivity.
  - reflexivity.
  - reflexivity.
  - reflexivity.
  - rewrite weather_state. fold params.
    destruct (request_calls srv "GET" None PNone PNone (Some params) st)
      as (es & -> & Hes).
    exists es. by rewrite calls_log.
Qed.

End CallProperties.

Lemma weather_request_params_witness :
  weather_params str_int (self new_client) 52 (-13) alerts true false !! "longitude"
    = Some "-13" /\
  weather_params str_int (self new_client) 52 (-13) alerts true false !! "oneobservation"
    = Some "true".
Proof.
  destruct (weather_request_params str_int (answering response_204) 52 (-13) alerts
              true false new_client) as (_ & _ & _ & Ho & _ & _ & Hl & _).
  split; [exact Hl | exact Ho].
Defined.

(** ** [close] and the ownership of the session *)

Lemma close_owned (s : session) (st : state) :
  owned s st -> close st = (Ret tt, log [session_close s] st).
Proof.
  intros [Hs Hc]. unfold close, bind, get_self. by rewrite Hs, Hc.
Qed.

Lemma close_borrowed (s : session) (st : state) :
  borrowed s st -> close st = (Ret tt, st).
Proof.
  intros [Hs Hc]. unfold close, bind, get_self. by rewrite Hs, Hc.
Qed.

Lemma close_without_session (st : state) :
  _session (self st) = None -> close st = (Ret tt, st).
Proof.
  intros Hs. unfold close, bind, get_self. by rewrite Hs.
Qed.

(** [close] never changes the client object. *)
Lemma close_self (st : state) : self (close st).2 = self st.
Proof.
  unfold close, bind, get_self; simpl.
  destruct (_session (self st)); [|reflexivity].
  destruct (_close_session (self st)); reflexivity.
Qed.

Lemma closed_sessions_app (es es' : list event) :
  closed_sessions (es ++ es')%list = closed_sessions es ∪ closed_sessions es'.
Proof.
  unfold closed_sessions. by rewrite omap_app, list_to_set_app_L.
Qed.

Lemma closed_sessions_replicate (k : nat) (s : session) :
  closed_sessions (replicate (S k) (session_close s)) = {[s]}.
Proof.
  induction k as [|k IH].
  - unfold closed_sessions; simpl. by rewrite (right_id_L ∅ (∪)).
  - change (replicate (S (S k)) (session_close s))
      with ([session_close s] ++ replicate (S k) (session_close s))%list.
    rewrite closed_sessions_app, IH.
    unfold closed_sessions; simpl.
    by rewrite (right_id_L ∅ (∪)), (idemp_L (∪)).
Qed.

Lemma close_calls_app (s : session) (es es' : list event) :
  close_calls s (es ++ es')%list = (close_calls s es + close_calls s es')%nat.
Proof.
  unfold close_calls. by rewrite List.filter_app, length_app.
Qed.

Lemma close_calls_replicate (k : nat) (s : session) :
  close_calls s (replicate k (session_close s)) = k.
Proof.
  induction k as [|k IH]; [reflexivity|].
  unfold close_calls in *; simpl. rewrite Nat.eqb_refl. simpl. by rewrite IH.
Qed.

Lemma no_session_close_calls (s : session) (es : list event) :
  no_session_close es -> close_calls s es = 0%nat.
Proof.
  unfold no_session_close, close_calls.
  induction 1 as [|e es He _ IH]; [reflexivity|].
  simpl. destruct e; simpl in *; try exact IH. discriminate.
Qed.

Section Ownership.

Context {number : Type} (str : number -> string).

Lemma run_cons (c : call) (cs : list call) (st : state) :
  run str (c :: cs) st = run str cs (run_call str c st).
Proof. reflexivity. Qed.

(** [k] calls of [close] on a client that owns its session are [k] calls of
    the session's [close]. *)
Lemma run_close_owned (k : nat) (s : session) (st : state) :
  owned s st ->
  run str (replicate k call_close) st = log (replicate k (session_close s)) st.
Proof.
  revert st. induction k as [|k IH]; intros st Ho.
  - by rewrite log_nil.
  - change (replicate (S k) call_close) with (call_close :: replicate k (@call_close number)).
    rewrite run_cons. cbn [run_call]. rewrite (close_owned s st Ho). cbn [snd].
    rewrite IH by exact Ho. by rewrite log_log.
Qed.

(** A call on a client that borrows its session leaves the client as it is
    and calls [close] on no session. *)
Lemma run_call_borrowed (c : call) (s : session) (st : state) :
  borrowed s st ->
  exists es : list event, run_call str c st = log es st /\ no_session_close es.
Proof.
  intros Hb. pose proof Hb as [Hs Hc]. destruct c; cbn [run_call].
  - destruct (request_calls srv method additional_headers data json_data params st)
      as (es & -> & Hes).
    rewrite (with_session_some st s Hs). eexists; split; [reflexivity|].
    constructor; [reflexivity | by apply on_response_no_close].
  - rewrite weather_state.
    destruct (request_calls srv "GET" None PNone PNone
                (Some (weather_params str (self st) latitude longitude product
                         one_observation metric)) st) as (es & -> & Hes).
    rewrite (with_session_some st s Hs). eexists; split; [reflexivity|].
    constructor; [reflexivity | by apply on_response_no_close].
  - rewrite (close_borrowed s st Hb). exists []. by rewrite log_nil; split; [|constructor].
  - exists []. by rewrite log_nil; split; [|constructor].
  - unfold __aexit__. rewrite (close_borrowed s st Hb).
    exists []. by rewrite log_nil; split; [|constructor].
Qed.

Lemma run_borrowed (cs : list call) (s : session) (st : state) :
  borrowed s st ->
  exists es : list event, run str cs st = log es st /\ no_session_close es.
Proof.
  revert st. induction cs as [|c cs IH]; intros st Hb.
  - exists []. by rewrite log_nil; split; [|constructor].
  - rewrite run_cons.
    destruct (run_call_borrowed c s st Hb) as (es & -> & Hes).
    destruct (IH (log es st) Hb) as (es' & -> & Hes').
    exists (es ++ es')%list. rewrite log_log. split; [reflexivity|].
    by apply Forall_app.
Qed.

(** C8: [close] respects the ownership of the session.  A client constructed
    with a session never calls that session's [close], whatever is called
    on the client.  A client that created its session owns it, and every
    [close()] calls the session's [close] once: [k] calls of the first are
    [k] calls of the second, which change neither the client nor, from the
    first call on, the set of sessions that were closed.  On a client that
    has no session, [close()] does nothing. *)
Theorem close_respects_ownership :
  (forall (key : string) (timeout : Z) (s n : session) (cs : list call),
      let st := run str cs {| self := __init__ key timeout (Some s);
                              fresh := n; calls := [] |} in
      self st = __init__ key timeout (Some s) /\ no_session_close (calls st)) /\
  (forall (srv : transport) (method : string)
          (additional_headers : option (gmap string string))
          (data json_data : pyval) (params : option (gmap string string))
          (st : state) (k : nat),
      _session (self st) = None ->
      let st1 := (request srv method additional_headers data json_data params st).2 in
      owned (fresh st) st1 /\
      run str (replicate k call_close) st1
        = log (replicate k (session_close (fresh st))) st1 /\
      close_calls (fresh st) (calls (run str (replicate k call_close) st1))
        = (close_calls (fresh st) (calls st1) + k)%nat /\
      closed_sessions (calls (run str (replicate (S k) call_close) st1))
        = closed_sessions (calls (run str [call_close] st1))) /\
  (forall st : state, _session (self st) = None -> close st = (Ret tt, st)).
Proof.
  split_and!.
  - intros key timeout s n cs st.
    destruct (run_borrowed cs s {| self := __init__ key timeout (Some s);
                                   fresh := n; calls := [] |}) as (es & Hes & Hno).
    { by split. }
    subst st. rewrite Hes. split; [reflexivity|]. exact Hno.
  - intros srv method additional_headers data json_data params st k Hs st1.
    assert (Ho : owned (fresh st) st1).
    { subst st1.
      destruct (request_calls srv method additional_headers data json_data params st)
        as (es & -> & _).
      rewrite (with_session_none st Hs). by split. }
    split_and!.
    + exact Ho.
    + by apply run_close_owned.
    + rewrite (run_close_owned k _ _ Ho), calls_log, close_calls_app.
      by rewrite close_calls_replicate.
    + change (run str [call_close] st1) with (run str (replicate 1 call_close) st1).
      rewrite (run_close_owned (S k) _ _ Ho), (run_close_owned 1 _ _ Ho).
      rewrite !calls_log, !closed_sessions_app.
      by rewrite (closed_sessions_replicate k), (closed_sessions_replicate 0).
  - exact close_without_session.
Qed.

End Ownership.

Lemma close_respects_ownership_witness :
  close_calls 0%nat
    (calls (run str_int [call_close; call_close; call_close]
              (request (answering response_204) "GET" None PNone PNone None
                 new_client).2)) = 3%nat.
Proof.
  destruct (close_respects_ownership str_int) as (_ & H & _).
  destruct (H (answering response_204) "GET" None PNone PNone None new_client 3%nat
              eq_refl) as (_ & _ & Hk & _).
  exact Hk.
Defined.

(** After a first request has created session [0], two calls of [close()]
    are two calls of that session's [close], and the second one is recorded
    like the first. *)
Lemma close_twice_closes_twice :
  let st1 := (request (answering response_204) "GET" None PNone PNone None
                new_client).2 in
  owned 0%nat st1 /\
  close_calls 0%nat (calls (close st1).2) = 1%nat /\
  close_calls 0%nat (calls (close (close st1).2).2) = 2%nat /\
  (close (close st1).2).2 <> (close st1).2.
Proof.
  intros st1. split_and!.
  - split; reflexivity.
  - vm_compute. reflexivity.
  - vm_compute. reflexivity.
  - intros H. apply (f_equal (fun st => close_calls 0%nat (calls st))) in H.
    vm_compute in H. discriminate.
Qed.

(** ** Worked cases *)

(** Status 401 with the body [{"error": "Unauthorized", "error_description":
    "bad key"}] raises the unauthorized kind with that description. *)
Example weather_unauthorized :
  (weather_for_coordinates str_int
     (answering (json_response 401 "application/json"
                   (PDict (<["error" := PStr "Unauthorized"]>
                           {["error_description" := PStr "bad key"]}))))
     52 13 observation true true new_client).1
  = Raise (HereUnauthorizedError [PStr "bad key"]).
Proof. vm_compute. reflexivity. Qed.

(** Status 400 with the body [{"Type": "Invalid Request", "Message": "bad
    latitude"}] raises the invalid-request kind with that message. *)
Example weather_invalid_request :
  (weather_for_coordinates str_int
     (answering (json_response 400 "application/json"
                   (PDict (<["Type" := PStr "Invalid Request"]>
                           {["Message" := PStr "bad latitude"]}))))
     52 13 observation true true new_client).1
  = Raise (HereInvalidRequestError [PStr "bad latitude"]).
Proof. vm_compute. reflexivity. Qed.

(** Status 200 with a body that has neither the root key nor an error shape
    raises the generic kind with [None] for a message. *)
Example weather_unrecognised_payload :
  (weather_for_coordinates str_int
     (answering (json_response 200 "application/json"
                   (PDict {["unexpected" := PBool true]})))
     52 13 observation true true new_client).1
  = Raise (HereError [PNone]).
Proof. vm_compute. reflexivity. Qed.

(** An error status whose header is [application/json; charset=utf-8] is not
    taken for JSON: the body text is carried, the mapper is not called. *)
Example error_with_charset_is_not_json :
  (request
     (answering {| status := 401;
                   headers_get := content_type_only "application/json; charset=utf-8";
                   read := list_byte_of_string "{}";
                   json := Ret (PDict ∅);
                   text := Ret "{}" |})
     "GET" None PNone PNone None new_client).1
  = Raise (HereError [PInt 401; PDict {["message" := PStr "{}"]}]).
Proof. vm_compute. reflexivity. Qed.

(** A client given session [7] makes its request on it and never closes it. *)
Example supplied_session_is_left_open :
  let st := run str_int
              [call_request (answering response_204) "GET" None PNone PNone None;
               call_close; call_aexit]
              (client_with_session 7%nat) in
  _session (self st) = Some 7%nat /\ close_calls 7%nat (calls st) = 0%nat /\
  length (calls st) = 2%nat.
Proof. vm_compute. repeat split. Qed.

(** * Further properties *)

(** ** The headers of a request *)

(** X1: the headers sent are the two defaults, [Accept: application/json]
    and [DNT: 1], overridden key by key by the caller's: a key the caller
    gives keeps the caller's value, any other key has the default or is
    absent.  Giving an empty mapping is the same as giving none. *)
Theorem request_headers_merge (extra : gmap string string) (name : string) :
  request_headers (Some extra) !! name
    = match extra !! name with
      | Some value => Some value
      | None => request_headers None !! name
      end /\
  dom (request_headers (Some extra)) = dom extra ∪ {["Accept"; "DNT"]} /\
  request_headers None !! "Accept" = Some "application/json" /\
  request_headers None !! "DNT" = Some "1" /\
  dom (request_headers None) = ({["Accept"; "DNT"]} : gset string) /\
  request_headers (Some ∅) = request_headers None.
Proof.
  assert (Hd : dom (request_headers None) = ({["Accept"; "DNT"]} : gset string)).
  { unfold request_headers. rewrite !dom_insert_L, dom_empty_L.
    by rewrite (right_id_L ∅ (∪)). }
  split_and!.
  - unfold request_headers. rewrite lookup_union.
    destruct (extra !! name) as [value|]; simpl.
    + by destruct (_ !! name).
    + by destruct (_ !! name).
  - change (request_headers (Some extra)) with (extra ∪ request_headers None).
    by rewrite dom_union_L, Hd.
  - reflexivity.
  - reflexivity.
  - exact Hd.
  - unfold request_headers. by rewrite (left_id_L ∅ (∪)).
Qed.

(** ** Exceptions the exchange lets through *)

(** X5: an exception of the exchange that is neither an
    [asyncio.TimeoutError] nor an [aiohttp.ClientError] nor a
    [socket.gaierror] is not translated: [request] raises it as it is, and
    so does [weather_for_coordinates]. *)
Theorem request_lets_other_exceptions_through (srv : transport) (method : string)
    (additional_headers : option (gmap string string))
    (data json_data : pyval) (params : option (gmap string string))
    (st : state) (exception : exn) :
  srv (request_timeout (self st))
      (session_request_args method additional_headers data json_data params)
    = Raise exception ->
  is_asyncio_TimeoutError exception = false ->
  is_ClientError_or_gaierror exception = false ->
  request srv method additional_headers data json_data params st
    = (Raise exception,
       log [session_request (the_session st) (request_timeout (self st))
              (session_request_args method additional_headers data json_data params)]
         (with_session st)).
Proof.
  intros Hsrv Ht Hc. rewrite request_eq, Hsrv.
  unfold in_except. by rewrite Ht, Hc.
Qed.

Lemma request_lets_other_exceptions_through_witness :
  (request (failing (OtherError "ssl.SSLError")) "GET" None PNone PNone None
     new_client).1 = Raise (OtherError "ssl.SSLError").
Proof.
  rewrite (request_lets_other_exceptions_through (failing (OtherError "ssl.SSLError"))
             "GET" None PNone PNone None new_client (OtherError "ssl.SSLError"));
    reflexivity.
Defined.

(** ** The error mapper on every value *)

(** X10: on a decoded body that is not a mapping (a list, a string, a number,
    a boolean or null) the mapper never returns: the membership test, the
    subscript or the call of [get] raises [TypeError] or [AttributeError],
    which is none of the four kinds. *)
Theorem get_error_on_non_mapping (json_data : pyval) :
  (forall d : gmap string pyval, json_data <> PDict d) ->
  exists e : exn,
    _get_error_from_response json_data = Raise e /\
    is_HereError e = false /\
    ((exists msg : string, e = TypeError msg) \/ e = AttributeError (type_name json_data) "get").
Proof.
  intros Hd. destruct json_data as [| b | z | f | s | l | d];
    try (eexists; split; [reflexivity | split; [reflexivity | left; eauto]]).
  - unfold _get_error_from_response. cbn [py_contains res_bind].
    destruct (str_in "error" s);
      eexists; (split; [reflexivity | split; [reflexivity | eauto]]).
  - unfold _get_error_from_response. cbn [py_contains res_bind].
    destruct (existsb _ l);
      eexists; (split; [reflexivity | split; [reflexivity | eauto]]).
  - destruct (Hd d eq_refl).
Qed.

Lemma get_error_on_non_mapping_witness :
  exists e : exn,
    _get_error_from_response (PList [PStr "error"]) = Raise e /\ is_HereError e = false.
Proof.
  destruct (get_error_on_non_mapping (PList [PStr "error"])) as (e & H1 & H2 & _).
  - discriminate.
  - exists e. by split.
Defined.

(** X11: on a mapping, what the mapper does is decided by three lookups.  It
    returns the unauthorized kind exactly when [error] is ["Unauthorized"]
    and [error_description] is present, carrying that description, whatever
    [Type] says; it returns the invalid-request kind exactly when [error] is
    not ["Unauthorized"] and [Type] is ["Invalid Request"]; it never returns
    the timeout kind; and the only exception it raises is the [KeyError] for
    a missing [error_description]. *)
Theorem get_error_decision_table (d : gmap string pyval) :
  (forall args : list pyval,
      _get_error_from_response (PDict d) = Ret (HereUnauthorizedError args) <->
      d !! "error" = Some (PStr "Unauthorized") /\
      exists description : pyval,
        d !! "error_description" = Some description /\ args = [description]) /\
  (forall args : list pyval,
      _get_error_from_response (PDict d) = Ret (HereInvalidRequestError args) <->
      d !! "error" <> Some (PStr "Unauthorized") /\
      d !! "Type" = Some (PStr "Invalid Request") /\
      args = [default PNone (d !! "Message")]) /\
  (forall args : list pyval,
      _get_error_from_response (PDict d) = Ret (HereError args) <->
      d !! "error" <> Some (PStr "Unauthorized") /\
      d !! "Type" <> Some (PStr "Invalid Request") /\
      args = [default PNone (d !! "Message")]) /\
  (forall args : list pyval,
      _get_error_from_response (PDict d) <> Ret (HereTimeOutError args)) /\
  (forall e : exn,
      _get_error_from_response (PDict d) = Raise e <->
      d !! "error" = Some (PStr "Unauthorized") /\
      d !! "error_description" = None /\ e = KeyError "error_description").
Proof.
  destruct (error_is_unauthorized d) as [He|He].
  - destruct (d !! "error_description") as [x|] eqn:Hx.
    + rewrite (get_error_unauthorized d x He Hx). split_and!.
      * intros args. split.
        -- intros [= <-]. split; [exact He|]. by exists x.
        -- intros (_ & y & [= <-] & ->). reflexivity.
      * intros args. split; [discriminate | intros (Hn & _); contradiction].
      * intros args. split; [discriminate | intros (Hn & _); contradiction].
      * discriminate.
      * intros e. split; [discriminate | intros (_ & [=] & _)].
    + rewrite (get_error_missing_description d He Hx). split_and!.
      * intros args. split; [discriminate | intros (_ & y & [=] & _)].
      * intros args. split; [discriminate | intros (Hn & _); contradiction].
      * intros args. split; [discriminate | intros (Hn & _); contradiction].
      * discriminate.
      * intros e. split; [intros [= <-]; by split_and! | intros (_ & _ & ->); reflexivity].
  - assert (Ht : {d !! "Type" = Some (PStr "Invalid Request")} +
                 {d !! "Type" <> Some (PStr "Invalid Request")}).
    { destruct (d !! "Type") as [v|]; [|right; discriminate].
      destruct (eq_str v "Invalid Request") eqn:E.
      - left. apply eq_str_true in E. congruence.
      - right. apply eq_str_false in E. congruence. }
    destruct Ht as [Ht|Ht].
    + rewrite (get_error_invalid_request d He Ht). split_and!.
      * intros args. split; [discriminate | intros (Hn & _); contradiction].
      * intros args. split; [intros [= <-]; by split_and! | intros (_ & _ & ->); reflexivity].
      * intros args. split; [discriminate | intros (_ & Hn & _); contradiction].
      * discriminate.
      * intros e. split; [discriminate | intros (Hn & _); contradiction].
    + rewrite (get_error_generic d He Ht). split_and!.
      * intros args. split; [discriminate | intros (Hn & _); contradiction].
      * intros args. split; [discriminate | intros (_ & Hn & _); contradiction].
      * intros args. split; [intros [= <-]; by split_and! | intros (_ & _ & ->); reflexivity].
      * discriminate.
      * intros e. split; [discriminate | intros (Hn & _); contradiction].
Qed.

(** ** Sequences of calls: what is recorded *)

Lemma new_sessions_app (es es' : list event) :
  new_sessions (es ++ es')%list = (new_sessions es + new_sessions es')%nat.
Proof. unfold new_sessions. by rewrite List.filter_app, length_app. Qed.

Lemma exchanges_app (es es' : list event) :
  exchanges (es ++ es')%list = (exchanges es + exchanges es')%nat.
Proof. unfold exchanges. by rewrite List.filter_app, length_app. Qed.

Lemma on_response_counts (es : list event) :
  on_response es ->
  new_sessions es = 0%nat /\ exchanges es = 0%nat /\
  forall (s : session) (t : Z), Forall (on_session s t) es.
Proof.
  unfold on_response, new_sessions, exchanges.
  induction 1 as [|e es He _ (IHn & IHx & IHs)].
  - repeat split; constructor.
  - destruct e; try discriminate; simpl.
    all: split_and!;
      [exact IHn | exact IHx | intros s t; constructor; [exact I | apply IHs]].
Qed.

(** The calls [ensure_session] adds: the creation, when there was no
    session. *)
Lemma calls_with_session (st : state) :
  calls (with_session st)
  = (calls st ++ match _session (self st) with
                 | Some _ => []
                 | None => [ClientSession_new (fresh st)]
                 end)%list.
Proof.
  destruct (_session (self st)) as [s|] eqn:E.
  - rewrite (with_session_some st s E). by rewrite app_nil_r.
  - by rewrite (with_session_none st E).
Qed.

Lemma the_session_with_session (st : state) :
  the_session (with_session st) = the_session st.
Proof. unfold the_session at 1. by rewrite session_with_session. Qed.

(** The state [close] leaves. *)
Lemma close_state (st : state) :
  (close st).2 = match _session (self st) with
                 | Some s => if _close_session (self st)
                             then log [session_close s] st else st
                 | None => st
                 end.
Proof.
  unfold close, bind, get_self; simpl.
  destruct (_session (self st)); [|reflexivity].
  destruct (_close_session (self st)); reflexivity.
Qed.

Section Sequences.

Context {number : Type} (str : number -> string).

Lemma run_app (cs cs' : list call) (st : state) :
  run str (cs ++ cs') st = run str cs' (run str cs st).
Proof. unfold run. apply fold_left_app. Qed.

(** What one call records and what it leaves of the client. *)
Lemma run_call_summary (c : call) (st : state) :
  exists es : list event,
    calls (run_call str c st) = (calls st ++ es)%list /\
    (if is_request_call c
     then self (run_call str c st) = self (with_session st)
     else self (run_call str c st) = self st /\ fresh (run_call str c st) = fresh st) /\
    new_sessions es = (if is_request_call c
                       then match _session (self st) with Some _ => 0 | None => 1 end
                       else 0)%nat /\
    exchanges es = (if is_request_call c then 1 else 0)%nat /\
    Forall (on_session (the_session st) (request_timeout (self st))) es /\
    (is_closing_call c = false -> no_session_close es).
Proof.
  assert (Hrq : forall srv method additional_headers data json_data params,
    exists es : list event,
      calls (request srv method additional_headers data json_data params st).2
        = (calls st ++ es)%list /\
      self (request srv method additional_headers data json_data params st).2
        = self (with_session st) /\
      new_sessions es = match _session (self st) with Some _ => 0 | None => 1 end%nat /\
      exchanges es = 1%nat /\
      Forall (on_session (the_session st) (request_timeout (self st))) es /\
      no_session_close es).
  { intros srv method additional_headers data json_data params.
    destruct (request_calls srv method additional_headers data json_data params st)
      as (es & -> & Hes).
    destruct (on_response_counts es Hes) as (Hn & Hx & Hs).
    rewrite calls_log, calls_with_session, <- app_assoc. eexists. split; [reflexivity|].
    split; [reflexivity|].
    rewrite new_sessions_app, exchanges_app.
    change (new_sessions (?e :: es)) with (new_sessions es).
    change (exchanges (session_request ?a ?b ?c :: es)) with (S (exchanges es)).
    rewrite Hn, Hx. unfold the_session.
    destruct (_session (self st)) as [s|]; simpl; split_and!; try reflexivity.
    - constructor; [by split_and! | apply Hs].
    - constructor; [reflexivity | by apply on_response_no_close].
    - constructor; [reflexivity|]. constructor; [by split_and! | apply Hs].
    - constructor; [reflexivity|].
      constructor; [reflexivity | by apply on_response_no_close]. }
  assert (Hcl : exists es : list event,
    calls (close st).2 = (calls st ++ es)%list /\
    (self (close st).2 = self st /\ fresh (close st).2 = fresh st) /\
    new_sessions es = 0%nat /\ exchanges es = 0%nat /\
    Forall (on_session (the_session st) (request_timeout (self st))) es).
  { rewrite close_state. unfold the_session.
    destruct (_session (self st)) as [s|]; [destruct (_close_session (self st))|].
    - exists [session_close s]. split_and!; try reflexivity.
      constructor; [reflexivity | constructor].
    - exists []. rewrite app_nil_r. split_and!; try reflexivity. constructor.
    - exists []. rewrite app_nil_r. split_and!; try reflexivity. constructor. }
  destruct c; cbn [run_call is_request_call is_closing_call].
  - destruct (Hrq srv method additional_headers data json_data params)
      as (es & H1 & H2 & H3 & H4 & H5 & H6).
    exists es. by split_and!.
  - rewrite weather_state.
    destruct (Hrq srv "GET" None PNone PNone
                (Some (weather_params str (self st) latitude longitude product
                         one_observation metric)))
      as (es & H1 & H2 & H3 & H4 & H5 & H6).
    exists es. by split_and!.
  - destruct Hcl as (es & H1 & [H2 H2'] & H3 & H4 & H5).
    exists es. split_and!; try done.
  - exists []. rewrite app_nil_r. split_and!; try done; constructor.
  - destruct Hcl as (es & H1 & [H2 H2'] & H3 & H4 & H5).
    exists es. split_and!; try done.
Qed.

Lemma with_session_same_client (st st' : state) :
  self st = self st' -> fresh st = fresh st' ->
  self (with_session st) = self (with_session st') /\
  the_session st = the_session st'.
Proof.
  intros Hs Hf. unfold the_session. rewrite Hs, Hf.
  destruct (_session (self st')) as [s|] eqn:E.
  - assert (E' : _session (self st) = Some s) by (by rewrite Hs).
    by rewrite (with_session_some st s E'), (with_session_some st' s E).
  - assert (E' : _session (self st) = None) by (by rewrite Hs).
    rewrite (with_session_none st E'), (with_session_none st' E); simpl.
    by rewrite Hs, Hf.
Qed.

(** A client without a session stays as it is as long as no request is
    made. *)
Lemma run_idle (cs : list call) (st : state) :
  existsb is_request_call cs = false ->
  _session (self st) = None ->
  run str cs st = st.
Proof.
  revert st. induction cs as [|c cs IH]; intros st Hcs Hs; [reflexivity|].
  cbn [existsb] in Hcs. apply orb_false_iff in Hcs as [Hc Hcs].
  rewrite run_cons.
  assert (H1 : run_call str c st = st).
  { destruct c; try discriminate; cbn [run_call].
    - by rewrite close_without_session.
    - reflexivity.
    - unfold __aexit__. by rewrite close_without_session. }
  rewrite H1. by apply IH.
Qed.

(** What a sequence of calls records and what it leaves of the client. *)
Lemma run_summary (cs : list call) (st : state) :
  exists es : list event,
    calls (run str cs st) = (calls st ++ es)%list /\
    self (run str cs st)
      = (if existsb is_request_call cs then self (with_session st) else self st) /\
    new_sessions es
      = (if existsb is_request_call cs
         then match _session (self st) with Some _ => 0 | None => 1 end
         else 0)%nat /\
    exchanges es = length (List.filter is_request_call cs) /\
    Forall (on_session (the_session st) (request_timeout (self st))) es /\
    (forallb (fun c => negb (is_closing_call c)) cs = true -> no_session_close es) /\
    (existsb is_request_call cs = false -> fresh (run str cs st) = fresh st).
Proof.
  revert st. induction cs as [|c cs IH]; intros st.
  { exists []. rewrite app_nil_r. split_and!; try reflexivity; constructor. }
  rewrite run_cons.
  destruct (run_call_summary c st) as (es1 & Hc1 & Hself1 & Hn1 & Hx1 & Hs1 & Hcl1).
  destruct (IH (run_call str c st)) as (es2 & Hc2 & Hself2 & Hn2 & Hx2 & Hs2 & Hcl2 & Hf2).
  exists (es1 ++ es2)%list.
  rewrite Hc2, Hc1, <- app_assoc, new_sessions_app, exchanges_app, Hn1, Hn2, Hx1, Hx2.
  cbn [existsb forallb List.filter].
  destruct (is_request_call c) eqn:Hc; cbn [orb length].
  - (* the call makes an exchange: the session exists from here on *)
    assert (Hsome : _session (self (run_call str c st)) = Some (the_session st))
      by (rewrite Hself1; apply session_with_session).
    assert (Hthe : the_session (run_call str c st) = the_session st)
      by (unfold the_session at 1; by rewrite Hsome).
    assert (Hto : request_timeout (self (run_call str c st)) = request_timeout (self st))
      by (rewrite Hself1; apply request_timeout_with_session).
    rewrite Hthe, Hto in Hs2. rewrite Hsome in *.
    split_and!.
    + reflexivity.
    + rewrite Hself2. destruct (existsb is_request_call cs); [|exact Hself1].
      by rewrite (with_session_some _ _ Hsome).
    + destruct (existsb is_request_call cs); lia.
    + reflexivity.
    + by apply Forall_app.
    + intros Hall. apply andb_true_iff in Hall as [Hc' Hall].
      apply Forall_app. split; [apply Hcl1; by destruct (is_closing_call c) | by apply Hcl2].
    + discriminate.
  - (* the call makes no exchange: same client *)
    destruct Hself1 as [Hself1 Hfresh1].
    destruct (with_session_same_client _ _ Hself1 Hfresh1) as [Hws Hthe].
    rewrite Hthe, Hself1 in Hs2. rewrite Hself1 in *.
    split_and!.
    + reflexivity.
    + rewrite Hself2. destruct (existsb is_request_call cs); [exact Hws | reflexivity].
    + reflexivity.
    + reflexivity.
    + by apply Forall_app.
    + intros Hall. apply andb_true_iff in Hall as [Hc' Hall].
      apply Forall_app. split; [apply Hcl1; by destruct (is_closing_call c) | by apply Hcl2].
    + intros Hcs. by rewrite (Hf2 Hcs).
Qed.

(** X2: over any sequence of calls on one client at most one session is
    created, and none when the client already has one; every creation,
    exchange and close that is recorded concerns that one session, and
    every exchange is made under the client's [request_timeout] and sent to
    [API_URL]. *)
Theorem one_session_per_client (cs : list call) (st : state) :
  exists added : list event,
    calls (run str cs st) = (calls st ++ added)%list /\
    (new_sessions added <= 1)%nat /\
    (is_Some (_session (self st)) -> new_sessions added = 0%nat) /\
    Forall (on_session (the_session st) (request_timeout (self st))) added.
Proof.
  destruct (run_summary cs st) as (es & Hc & _ & Hn & _ & Hs & _).
  exists es. split_and!; try done.
  - rewrite Hn. destruct (existsb _ cs), (_session (self st)); lia.
  - intros [s Hsome]. rewrite Hn, Hsome. by destruct (existsb _ cs).
Qed.

(** X3: a sequence of calls never changes [api_key] or [request_timeout].
    A client that has a session is not changed at all, so its session is
    never replaced or dropped, not even by [close].  A client without one
    stays without one until the first request, and from then on owns the
    session that request created. *)
Theorem client_is_kept (cs : list call) (st : state) :
  api_key (self (run str cs st)) = api_key (self st) /\
  request_timeout (self (run str cs st)) = request_timeout (self st) /\
  (is_Some (_session (self st)) -> self (run str cs st) = self st) /\
  (_session (self st) = None ->
   if existsb is_request_call cs
   then owned (fresh st) (run str cs st)
   else run str cs st = st).
Proof.
  destruct (run_summary cs st) as (es & _ & Hself & _).
  rewrite Hself. split_and!.
  - destruct (existsb _ cs); [apply api_key_with_session | reflexivity].
  - destruct (existsb _ cs); [apply request_timeout_with_session | reflexivity].
  - intros [s Hs]. destruct (existsb _ cs); [|reflexivity].
    by rewrite (with_session_some st s Hs).
  - intros Hs. destruct (existsb _ cs) eqn:Hcs.
    + unfold owned. rewrite Hself, (with_session_none st Hs). by split.
    + by apply run_idle.
Qed.

(** X4: every call of [request] or [weather_for_coordinates] makes exactly
    one exchange, whatever its outcome, and no other call makes any: a
    sequence of calls records as many exchanges as it has such calls. *)
Theorem one_exchange_per_call (cs : list call) (st : state) :
  exchanges (calls (run str cs st))
  = (exchanges (calls st) + length (List.filter is_request_call cs))%nat.
Proof.
  destruct (run_summary cs st) as (es & Hc & _ & _ & Hx & _).
  by rewrite Hc, exchanges_app, Hx.
Qed.

(** X6: used as a scope on a client without a session, [__aenter__], then
    calls none of which closes, then [__aexit__]: if a request was made, the
    session it created is closed once, as the last thing recorded, whether
    the requests returned or raised; if none was made, nothing happens. *)
Theorem scope_closes_once (cs : list call) (st : state) :
  _session (self st) = None ->
  forallb (fun c => negb (is_closing_call c)) cs = true ->
  let st' := run str (call_aenter :: cs ++ [call_aexit]) st in
  if existsb is_request_call cs
  then close_calls (fresh st) (calls st') = S (close_calls (fresh st) (calls st)) /\
       exists es : list event,
         calls st' = (calls st ++ es ++ [session_close (fresh st)])%list /\
         no_session_close es
  else st' = st.
Proof.
  intros Hs Hcs st'. destruct (existsb is_request_call cs) eqn:Hrq.
  - subst st'. rewrite run_cons. cbn [run_call __aenter__ get_self snd].
    rewrite run_app.
    destruct (run_summary cs st) as (es & Hc & Hself & _ & _ & _ & Hno & _).
    rewrite Hrq in Hself. specialize (Hno Hcs).
    assert (Ho : owned (fresh st) (run str cs st)).
    { unfold owned. rewrite Hself, (with_session_none st Hs). by split. }
    change (run str [call_aexit] (run str cs st)) with (close (run str cs st)).2.
    rewrite (close_owned _ _ Ho). cbn [snd]. rewrite calls_log, Hc.
    split.
    + rewrite !close_calls_app, (no_session_close_calls _ _ Hno).
      unfold close_calls at 2; simpl. rewrite Nat.eqb_refl. simpl. lia.
    + exists es. by rewrite <- app_assoc.
  - subst st'. apply run_idle; [|exact Hs].
    cbn [existsb is_request_call orb]. rewrite existsb_app, Hrq. reflexivity.
Qed.

End Sequences.

Lemma scope_closes_once_witness :
  close_calls 0%nat
    (calls (run str_int
              [call_aenter;
               call_request (failing asyncio_TimeoutError) "GET" None PNone PNone None;
               call_weather_for_coordinates (answering response_204) 52 13 alerts true true;
               call_aexit]
              new_client)) = 1%nat.
Proof.
  destruct (scope_closes_once str_int
              [call_request (failing asyncio_TimeoutError) "GET" None PNone PNone None;
               call_weather_for_coordinates (answering response_204) 52 13 alerts true true]
              new_client eq_refl eq_refl) as [H _].
  exact H.
Defined.

(** ** What [weather_for_coordinates] hands back *)

Section WeatherResults.

Context {number : Type} (str : number -> string).

(** X7: whenever [weather_for_coordinates] returns, what it returns is the
    mapping [request] returned, and that mapping holds a value other than
    [None] under the root key of the requested product. *)
Theorem weather_returns_root_key (srv : transport) (latitude longitude : number)
    (product : WeatherProductType) (one_observation metric : bool)
    (st : state) (v : pyval) :
  (weather_for_coordinates str srv latitude longitude product
     one_observation metric st).1 = Ret v ->
  exists (d : gmap string pyval) (x : pyval),
    v = PDict d /\
    d !! _product_node product = Some x /\ x <> PNone /\
    request srv "GET" None PNone PNone
      (Some (weather_params str (self st) latitude longitude product
               one_observation metric)) st
    = (Ret v, (weather_for_coordinates str srv latitude longitude product
                 one_observation metric st).2).
Proof.
  rewrite weather_eq.
  destruct (request _ _ _ _ _ _ st) as [[json_data|e] st1]; [|discriminate].
  destruct json_data as [| b | z | f | s | l | d]; try discriminate.
  cbn [py_get].
  destruct (d !! _product_node product) as [x|] eqn:Hx; simpl.
  - destruct (is_None x) eqn:Hn; simpl.
    + destruct (_get_error_from_response (PDict d)); discriminate.
    + intros [= <-]. exists d, x. split_and!; try done.
      intros ->. discriminate.
  - destruct (_get_error_from_response (PDict d)); discriminate.
Qed.

Lemma product_node_not_message (product : WeatherProductType) :
  _product_node product <> "message".
Proof. destruct product; discriminate. Qed.

(** X8: an answer that is neither an error nor a 204 and whose
    [Content-Type] does not mention [application/json] makes
    [weather_for_coordinates] raise the generic kind with [None]: [request]
    wraps the text as [{"message": text}], which has no root key, and the
    mapper reads [Message], not [message], so the text is not carried. *)
Theorem weather_on_text_answer (srv : transport) (latitude longitude : number)
    (product : WeatherProductType) (one_observation metric : bool)
    (st : state) (response : ClientResponse) (body : string) :
  let rq := session_request_args "GET" None PNone PNone
              (Some (weather_params str (self st) latitude longitude product
                       one_observation metric)) in
  srv (request_timeout (self st)) rq = Ret response ->
  ~ error_status (status response) ->
  status response <> 204 ->
  ~ occurs_in "application/json" (default "" (headers_get response "Content-Type")) ->
  text response = Ret body ->
  weather_for_coordinates str srv latitude longitude product one_observation metric st
  = (Raise (HereError [PNone]),
     log [session_request (the_session st) (request_timeout (self st)) rq;
          response_text] (with_session st)).
Proof.
  intros rq Hsrv Hs Hn Hc Ht. rewrite weather_eq, request_eq. fold rq. rewrite Hsrv.
  apply str_in_not_occurs in Hc.
  rewrite handle_response_text by assumption.
  rewrite Ht, log_log. cbn [res_bind py_get app].
  rewrite lookup_singleton_ne by (intros H; symmetry in H; by apply product_node_not_message in H).
  simpl. rewrite get_error_generic; [reflexivity | |];
    rewrite lookup_singleton_ne; discriminate.
Qed.

(** X9: an answer with a status in [400,600), [Content-Type] exactly
    [application/json] and a body that decodes to a mapping makes
    [weather_for_coordinates] raise what the mapper makes of the mapping,
    whatever the product: the unauthorized kind with the description, the
    invalid-request kind with the message, or the generic kind with the
    message. *)
Theorem weather_on_error_answer (srv : transport) (latitude longitude : number)
    (product : WeatherProductType) (one_observation metric : bool)
    (st : state) (response : ClientResponse) (d : gmap string pyval) :
  let rq := session_request_args "GET" None PNone PNone
              (Some (weather_params str (self st) latitude longitude product
                       one_observation metric)) in
  let out := weather_for_coordinates str srv latitude longitude product
               one_observation metric st in
  srv (request_timeout (self st)) rq = Ret response ->
  error_status (status response) ->
  default "" (headers_get response "Content-Type") = "application/json" ->
  json response = Ret (PDict d) ->
  (forall description : pyval,
      d !! "error" = Some (PStr "Unauthorized") ->
      d !! "error_description" = Some description ->
      out.1 = Raise (HereUnauthorizedError [description])) /\
  (d !! "error" <> Some (PStr "Unauthorized") ->
   d !! "Type" = Some (PStr "Invalid Request") ->
   out.1 = Raise (HereInvalidRequestError [default PNone (d !! "Message")])) /\
  (d !! "error" <> Some (PStr "Unauthorized") ->
   d !! "Type" <> Some (PStr "Invalid Request") ->
   out.1 = Raise (HereError [default PNone (d !! "Message")])) /\
  out.2 = log [session_request (the_session st) (request_timeout (self st)) rq;
               response_read; response_close; response_json] (with_session st).
Proof.
  intros rq out Hsrv Hs Hc Hj.
  assert (Hout : out = (error <-? _get_error_from_response (PDict d) ;; Raise error,
                        log [session_request (the_session st) (request_timeout (self st)) rq;
                             response_read; response_close; response_json]
                          (with_session st))).
  { subst out. rewrite weather_eq, request_eq. fold rq. rewrite Hsrv.
    rewrite handle_response_error_json by assumption.
    rewrite Hj, log_log. cbn [res_bind app].
    destruct (_get_error_from_response (PDict d)); reflexivity. }
  rewrite Hout. cbn [fst snd]. split_and!.
  - intros x He Hx. by rewrite (get_error_unauthorized d x He Hx).
  - intros He Ht. by rewrite (get_error_invalid_request d He Ht).
  - intros He Ht. by rewrite (get_error_generic d He Ht).
  - reflexivity.
Qed.

(** X13: a mapping that holds nothing but the root key of another product is
    not accepted for the requested one: the root keys differ, and the
    generic kind with [None] is raised. *)
Theorem weather_rejects_other_product (srv : transport) (latitude longitude : number)
    (requested other : WeatherProductType) (one_observation metric : bool)
    (st st' : state) (x : pyval) :
  requested <> other ->
  request srv "GET" None PNone PNone
    (Some (weather_params str (self st) latitude longitude requested
             one_observation metric)) st
  = (Ret (PDict {[_product_node other := x]}), st') ->
  weather_for_coordinates str srv latitude longitude requested one_observation metric st
  = (Raise (HereError [PNone]), st').
Proof.
  intros Hne Hrq. rewrite weather_eq, Hrq. cbn [py_get].
  rewrite lookup_singleton_ne
    by (intros H; apply product_node_inj in H; congruence).
  simpl.
  assert (Hk : forall k : string,
             k = "error" \/ k = "Type" \/ k = "Message" ->
             ({[_product_node other := x]} : gmap string pyval) !! k = None).
  { intros k Hk. apply lookup_singleton_ne.
    destruct Hk as [-> | [-> | ->]]; destruct other; discriminate. }
  rewrite get_error_generic; rewrite ?Hk by tauto; done.
Qed.

End WeatherResults.

Lemma weather_returns_root_key_witness :
  exists (d : gmap string pyval) (x : pyval),
    PDict payload_observations = PDict d /\
    d !! _product_node observation = Some x /\ x <> PNone.
Proof.
  destruct (weather_returns_root_key str_int
              (answering (json_response 200 "application/json" (PDict payload_observations)))
              52 13 observation true true new_client (PDict payload_observations))
    as (d & x & H1 & H2 & H3 & _).
  - vm_compute. reflexivity.
  - by exists d, x.
Defined.

Lemma weather_on_text_answer_witness :
  (weather_for_coordinates str_int (answering response_200_text) 52 13 observation
     true true new_client).1 = Raise (HereError [PNone]).
Proof.
  rewrite (weather_on_text_answer str_int (answering response_200_text) 52 13 observation
             true true new_client response_200_text "hello").
  - reflexivity.
  - reflexivity.
  - unfold error_status; simpl; lia.
  - discriminate.
  - apply str_in_not_occurs. reflexivity.
  - reflexivity.
Defined.

Lemma weather_on_error_answer_witness :
  (weather_for_coordinates str_int
     (answering (json_response 400 "application/json"
                   (PDict (<["Type" := PStr "Invalid Request"]>
                           {["Message" := PStr "bad latitude"]}))))
     52 13 observation true true new_client).1
  = Raise (HereInvalidRequestError [PStr "bad latitude"]).
Proof.
  destruct (weather_on_error_answer str_int
              (answering (json_response 400 "application/json"
                            (PDict (<["Type" := PStr "Invalid Request"]>
                                    {["Message" := PStr "bad latitude"]}))))
              52 13 observation true true new_client
              (json_response 400 "application/json"
                 (PDict (<["Type" := PStr "Invalid Request"]>
                         {["Message" := PStr "bad latitude"]})))
              (<["Type" := PStr "Invalid Request"]> {["Message" := PStr "bad latitude"]}))
    as (_ & H & _).
  - reflexivity.
  - unfold error_status; simpl; lia.
  - reflexivity.
  - reflexivity.
  - rewrite H; [reflexivity | discriminate | reflexivity].
Defined.

Lemma weather_rejects_other_product_witness :
  (weather_for_coordinates str_int
     (answering (json_response 200 "application/json"
                   (PDict {[_product_node forecast_hourly := PList []]})))
     52 13 observation true true new_client).1
  = Raise (HereError [PNone]).
Proof.
  rewrite (weather_rejects_other_product str_int
             (answering (json_response 200 "application/json"
                           (PDict {[_product_node forecast_hourly := PList []]})))
             52 13 observation forecast_hourly true true new_client
             (request (answering (json_response 200 "application/json"
                                    (PDict {[_product_node forecast_hourly := PList []]})))
                "GET" None PNone PNone
                (Some (weather_params str_int (self new_client) 52 13 observation
                         true true)) new_client).2
             (PList [])).
  - reflexivity.
  - discriminate.
  - vm_compute. reflexivity.
Defined.

(** ** Which calls are made on the response *)

(** X12: [request] closes the response itself exactly when the status is in
    [400,600) or is 204, and reads the raw body exactly when the status is
    in [400,600); on the two paths that return a body it asks the response
    for either the JSON or the text, never both, and makes at most three
    calls on it. *)
Theorem response_calls_by_status (srv : transport) (method : string)
    (additional_headers : option (gmap string string))
    (data json_data : pyval) (params : option (gmap string string))
    (st : state) (response : ClientResponse) :
  let rq := session_request_args method additional_headers data json_data params in
  srv (request_timeout (self st)) rq = Ret response ->
  exists es : list event,
    (request srv method additional_headers data json_data params st).2
    = log (session_request (the_session st) (request_timeout (self st)) rq :: es)
        (with_session st) /\
    (In response_close es <-> error_status (status response) \/ status response = 204) /\
    (In response_read es <-> error_status (status response)) /\
    (In response_json es -> ~ In response_text es) /\
    (In response_text es -> ~ error_status (status response) /\ status response <> 204) /\
    (length es <= 3)%nat.
Proof.
  intros rq Hsrv. rewrite request_eq. fold rq. rewrite Hsrv.
  set (st1 := log [session_request (the_session st) (request_timeout (self st)) rq]
                (with_session st)).
  assert (Hlog : forall es, log es st1
                 = log (session_request (the_session st) (request_timeout (self st)) rq :: es)
                     (with_session st))
    by (intros es; subst st1; by rewrite log_log).
  destruct (decide (status response `div` 100 ∈ [4; 5])) as [Hs|Hs];
    rewrite error_status_div in Hs.
  - destruct (String.eqb_spec (default "" (headers_get response "Content-Type"))
                "application/json") as [Hc|Hc].
    + rewrite handle_response_error_json by assumption. cbn [snd].
      eexists. split; [apply Hlog|]. simpl.
      split_and!; try lia; try tauto; intuition discriminate.
    + rewrite handle_response_error_other by assumption. cbn [snd].
      eexists. split; [apply Hlog|]. simpl.
      split_and!; try lia; try tauto; intuition discriminate.
  - destruct (decide (status response = 204)) as [Hn|Hn].
    + rewrite handle_response_204 by assumption. cbn [snd].
      eexists. split; [apply Hlog|]. simpl.
      split_and!; try lia; try tauto; intuition discriminate.
    + destruct (str_in "application/json"
                  (default "" (headers_get response "Content-Type"))) eqn:Hc.
      * rewrite handle_response_json by assumption. cbn [snd].
        eexists. split; [apply Hlog|]. simpl.
        split_and!; try lia; try tauto; intuition discriminate.
      * rewrite handle_response_text by assumption. cbn [snd].
        eexists. split; [apply Hlog|]. simpl.
        split_and!; try lia; try tauto; intuition discriminate.
Qed.

Lemma response_calls_by_status_witness :
  exists es : list event,
    (request (answering response_500_text) "GET" None PNone PNone None new_client).2
    = log (session_request 0%nat 10
             (session_request_args "GET" None PNone PNone None) :: es)
        (with_session new_client) /\
    In response_close es.
Proof.
  destruct (response_calls_by_status (answering response_500_text) "GET" None PNone
              PNone None new_client response_500_text eq_refl)
    as (es & H1 & H2 & _).
  exists es. split; [exact H1|].
  apply H2. left. unfold error_status; simpl; lia.
Defined.

(** ** Error bodies in ASCII *)

Lemma valid_utf8_ascii (contents : list byte) :
  Forall (fun b => in_range 0 127 b = true) contents ->
  valid_utf8 contents = true.
Proof.
  induction 1 as [|b bs Hb _ IH]; [reflexivity|].
  cbn [valid_utf8]. by rewrite Hb.
Qed.

(** X15: for a status in [400,600) whose [Content-Type] is not exactly
    [application/json], a body made of bytes below 128 always decodes: the
    generic kind is raised with the status and [{"message": text}], and the
    text, encoded again, is the body byte for byte. *)
Theorem request_error_ascii_body (srv : transport) (method : string)
    (additional_headers : option (gmap string string))
    (data json_data : pyval) (params : option (gmap string string))
    (st : state) (response : ClientResponse) :
  let rq := session_request_args method additional_headers data json_data params in
  srv (request_timeout (self st)) rq = Ret response ->
  error_status (status response) ->
  default "" (headers_get response "Content-Type") <> "application/json" ->
  Forall (fun b => in_range 0 127 b = true) (read response) ->
  exists message : string,
    (request srv method additional_headers data json_data params st).1
    = Raise (HereError [PInt (status response); PDict {["message" := PStr message]}]) /\
    list_byte_of_string message = read response.
Proof.
  intros rq Hsrv Hs Hc Hascii. rewrite request_eq. fold rq. rewrite Hsrv.
  rewrite handle_response_error_other by assumption.
  rewrite (bytes_decode_utf8_valid _ (valid_utf8_ascii _ Hascii)).
  exists (string_of_list_byte (read response)). split; [reflexivity|].
  apply list_byte_of_string_of_list_byte.
Qed.

Lemma request_error_ascii_body_witness :
  exists message : string,
    (request (answering response_500_text) "GET" None PNone PNone None new_client).1
    = Raise (HereError [PInt 500; PDict {["message" := PStr message]}]) /\
    list_byte_of_string message = list_byte_of_string "internal error".
Proof.
  apply (request_error_ascii_body (answering response_500_text) "GET" None PNone PNone
           None new_client response_500_text).
  - reflexivity.
  - unfold error_status; simpl; lia.
  - discriminate.
  - repeat constructor.
Defined.

(** ** The query parameters keep the arguments *)

Lemma str_product_inj (p q : WeatherProductType) : __str__ p = __str__ q -> p = q.
Proof. destruct p, q; (reflexivity || discriminate). Qed.

Lemma true_false_inj (a b : bool) :
  (if a then "true" else "false") = (if b then "true" else "false") -> a = b.
Proof. destruct a, b; (reflexivity || discriminate). Qed.

(** X14: nothing of the arguments is lost in the query parameters: two calls
    that build the same mapping have the same credential, the same product,
    the same two flags, and coordinates with the same textual form. *)
Theorem weather_params_keep_arguments {number : Type} (str : number -> string)
    (o o' : AioHere) (latitude longitude latitude' longitude' : number)
    (product product' : WeatherProductType)
    (one_observation metric one_observation' metric' : bool) :
  weather_params str o latitude longitude product one_observation metric
  = weather_params str o' latitude' longitude' product' one_observation' metric' ->
  api_key o = api_key o' /\ product = product' /\
  one_observation = one_observation' /\ metric = metric' /\
  str latitude = str latitude' /\ str longitude = str longitude'.
Proof.
  intros H.
  assert (Hk : forall k : string,
             weather_params str o latitude longitude product one_observation metric !! k
             = weather_params str o' latitude' longitude' product' one_observation'
                 metric' !! k) by (intros k; by rewrite H).
  pose proof (Hk "apiKey") as H1. pose proof (Hk "product") as H2.
  pose proof (Hk "oneobservation") as H3. pose proof (Hk "metric") as H4.
  pose proof (Hk "latitude") as H5. pose proof (Hk "longitude") as H6.
  clear Hk H. unfold weather_params in *.
  repeat (rewrite lookup_insert_ne in H1 by discriminate).
  repeat (rewrite lookup_insert_ne in H2 by discriminate).
  repeat (rewrite lookup_insert_ne in H3 by discriminate).
  repeat (rewrite lookup_insert_ne in H4 by discriminate).
  repeat (rewrite lookup_insert_ne in H5 by discriminate).
  repeat (rewrite lookup_insert_ne in H6 by discriminate).
  rewrite !lookup_insert_eq in *.
  injection H1 as H1. injection H2 as H2. injection H3 as H3.
  injection H4 as H4. injection H5 as H5. injection H6 as H6.
  split_and!; try done.
  - by apply str_product_inj.
  - by apply true_false_inj.
  - by apply true_false_inj.
Qed.

Lemma weather_params_keep_arguments_witness :
  api_key (self new_client) = api_key (self (client_with_session 3%nat)).
Proof.
  destruct (weather_params_keep_arguments str_int (self new_client)
              (self (client_with_session 3%nat))
              52 13 52 13 observation observation true false true false eq_refl)
    as (Hk & _).
  exact Hk.
Defined.

(** ** Sequences of calls: worked cases *)

Lemma one_session_per_client_witness :
  exists added : list event,
    calls (run str_int
             [call_request (failing aiohttp_ClientError) "GET" None PNone PNone None;
              call_weather_for_coordinates (answering response_204) 52 13 alerts true true;
              call_close]
             new_client) = added /\
    (new_sessions added <= 1)%nat.
Proof.
  destruct (one_session_per_client str_int
              [call_request (failing aiohttp_ClientError) "GET" None PNone PNone None;
               call_weather_for_coordinates (answering response_204) 52 13 alerts true true;
               call_close]
              new_client) as (added & Hc & Hn & _).
  exists added. split; [exact Hc | exact Hn].
Defined.

Lemma client_is_kept_witness :
  self (run str_int
          [call_request (answering response_500_text) "GET" None PNone PNone None;
           call_close; call_aexit]
          (client_with_session 7%nat))
  = self (client_with_session 7%nat).
Proof.
  destruct (client_is_kept str_int
              [call_request (answering response_500_text) "GET" None PNone PNone None;
               call_close; call_aexit]
              (client_with_session 7%nat)) as (_ & _ & H & _).
  apply H. by exists 7%nat.
Defined.

Lemma one_exchange_per_call_witness :
  exchanges
    (calls (run str_int
              [call_request (failing asyncio_TimeoutError) "GET" None PNone PNone None;
               call_close;
               call_weather_for_coordinates (answering response_204) 52 13 alerts true true]
              new_client)) = 2%nat.
Proof.
  rewrite (one_exchange_per_call str_int
             [call_request (failing asyncio_TimeoutError) "GET" None PNone PNone None;
              call_close;
              call_weather_for_coordinates (answering response_204) 52 13 alerts true true]
             new_client).
  reflexivity.
Defined.
